(** * ConceptNet facts for detected image objects

    A shallow embedding of [conceptnet.py] and the properties its
    specification states about it.

    Python values are modelled as the interpreter holds them:
    - a [str] is the list of its Unicode code points;
    - a [float] is the rational it denotes, or an infinity, or NaN, and only
      its comparisons are used;
    - a decoded JSON document is a tree of [json] values, an object being the
      association list of its items, each key once;
    - a raised exception is the [Raise] branch of [result];
    - the remote service is a function of the number of the request and of
      its URL, so that the same URL may be answered differently each time.

    What is printed to the standard output is left out. *)

From Stdlib Require Import List ZArith NArith QArith Bool Lia String Ascii.
From Stdlib Require Import DecimalString Sorting.Sorted Sorting.Permutation.
Import ListNotations.

Local Open Scope N_scope.

(** ** Strings *)

Definition char := N.
Definition str := list char.

(** The code points of an ASCII literal. *)
Definition py (s : string) : str := map N_of_ascii (list_ascii_of_string s).
Arguments py s%_string.

Fixpoint str_eqb (a b : str) : bool :=
  match a, b with
  | [], [] => true
  | x :: a', y :: b' => (x =? y) && str_eqb a' b'
  | _, _ => false
  end.

Definition between (lo hi c : N) : bool := (lo <=? c) && (c <=? hi).

(** [str.isspace] on one code point; [str.strip] and the pattern [\s] of
    [re] use the same table. *)
Definition isspace (c : char) : bool :=
  between 9 13 c || between 28 32 c || (c =? 133) || (c =? 160)
  || (c =? 5760) || between 8192 8202 c || (c =? 8232) || (c =? 8233)
  || (c =? 8239) || (c =? 8287) || (c =? 12288).

Fixpoint lstrip (s : str) : str :=
  match s with
  | [] => []
  | c :: t => if isspace c then lstrip t else s
  end.

Definition rstrip (s : str) : str := rev (lstrip (rev s)).

(** [s.strip()] *)
Definition strip (s : str) : str := rstrip (lstrip s).

(** [re.sub(r"\s+", rep, s)]: every maximal run of white space becomes one
    [rep]; [in_run] tells that the previous character was white space. *)
Fixpoint sub_spaces (rep : str) (in_run : bool) (s : str) : str :=
  match s with
  | [] => []
  | c :: t =>
      if isspace c
      then (if in_run then [] else rep) ++ sub_spaces rep true t
      else c :: sub_spaces rep false t
  end.

Definition re_sub_spaces (rep s : str) : str := sub_spaces rep false s.

(** White space stands in [s] as single spaces only: every white space
    character is U+0020 and no two are neighbours. [after_space] tells that
    the character before [s] was white space. *)
Fixpoint single_spaced (after_space : bool) (s : str) : bool :=
  match s with
  | [] => true
  | c :: t =>
      if isspace c then (c =? 32) && negb after_space && single_spaced true t
      else single_spaced false t
  end.

(** The class [[a-z0-9_]]. *)
Definition isident (c : char) : bool :=
  between 97 122 c || between 48 57 c || (c =? 95).

(** [re.sub(r"[^a-z0-9_]+", "", s)] *)
Definition re_sub_nonident (s : str) : str := filter isident s.

(** [s.replace("_", " ")] *)
Definition replace_underscores (s : str) : str :=
  map (fun c => if c =? 95 then 32 else c) s.

Fixpoint startswith (s prefix : str) : bool :=
  match prefix, s with
  | [], _ => true
  | p :: prefix', c :: s' => (c =? p) && startswith s' prefix'
  | _ :: _, [] => false
  end.

Definition endswith (s suffix : str) : bool := startswith (rev s) (rev suffix).

(** [s.startswith((p1, ..., pn))] and [s.endswith((p1, ..., pn))] *)
Definition startswith_any (s : str) (ps : list str) : bool := existsb (startswith s) ps.
Definition endswith_any (s : str) (ps : list str) : bool := existsb (endswith s) ps.

(** [s.split(sep)[-1]]: what follows the last [sep], the whole of [s] when
    there is none. *)
Fixpoint last_field (sep : char) (s : str) : str :=
  match s with
  | [] => []
  | c :: t => if existsb (N.eqb sep) t then last_field sep t
              else if c =? sep then t else s
  end.

(** Case mapping of the code points below U+0100. *)
Definition lower_latin1 (c : char) : char :=
  if between 65 90 c || (between 192 222 c && negb (c =? 215)) then c + 32 else c.

Definition upper_latin1 (c : char) : str :=
  if between 97 122 c || (between 224 254 c && negb (c =? 247)) then [c - 32]
  else if c =? 181 then [924]
  else if c =? 223 then [83; 83]
  else if c =? 255 then [376]
  else [c].

Definition latin1 (s : str) : bool := forallb (fun c => c <? 256) s.

(** [str(n)] of an [int] *)
Definition str_of_int (z : Z) : str := py (NilZero.string_of_int (Z.to_int z)).

(** ** Floats *)

Inductive pyfloat := NaN | NegInf | Fin (q : Q) | PosInf.

(** The order of two floats; none when one of them is NaN. *)
Definition fcompare (x y : pyfloat) : option comparison :=
  match x, y with
  | NaN, _ | _, NaN => None
  | NegInf, NegInf | PosInf, PosInf => Some Eq
  | NegInf, _ | _, PosInf => Some Lt
  | _, NegInf | PosInf, _ => Some Gt
  | Fin a, Fin b => Some (a ?= b)%Q
  end.

(** [x >= y] and [x > y] *)
Definition fge (x y : pyfloat) : bool :=
  match fcompare x y with Some Eq | Some Gt => true | _ => false end.
Definition fgt (x y : pyfloat) : bool :=
  match fcompare x y with Some Gt => true | _ => false end.

(** A float that is no NaN: those are the floats that [>=] and [>] order. *)
Definition ordered (x : pyfloat) : Prop := x <> NaN.

(** [float(z)] of an [int]: the nearest binary64, ties to the even
    significand, and no value ([OverflowError]) from 2^1024 on. *)
Definition float_of_int (z : Z) : option pyfloat :=
  let a := Z.abs z in
  let bits := (Z.log2 a + 1)%Z in
  if (bits <=? 53)%Z then Some (Fin (inject_Z z))
  else
    let sh := (bits - 53)%Z in
    let q := Z.shiftr a sh in
    let r := Z.land a (Z.ones sh) in
    let half := (2 ^ (sh - 1))%Z in
    let q' := if (half <? r)%Z || ((r =? half)%Z && Z.odd q) then (q + 1)%Z else q in
    let m := (q' * 2 ^ sh)%Z in
    if (2 ^ 1024 <=? m)%Z then None else Some (Fin (inject_Z (Z.sgn z * m))).

(** ** Decoded JSON *)

#[warnings="-register-all"]
Inductive json :=
| JNull
| JBool (b : bool)
| JInt (z : Z)
| JFloat (f : pyfloat)
| JStr (s : str)
| JArr (items : list json)
| JObj (items : list (str * json)).

(** [bool(v)] *)
Definition truthy (v : json) : bool :=
  match v with
  | JNull => false
  | JBool b => b
  | JInt z => negb (z =? 0)%Z
  | JFloat (Fin q) => negb (Qeq_bool q 0)
  | JFloat _ => true
  | JStr s => negb (str_eqb s [])
  | JArr l => match l with [] => false | _ => true end
  | JObj l => match l with [] => false | _ => true end
  end.

Fixpoint lookup {A : Type} (k : str) (items : list (str * A)) : option A :=
  match items with
  | [] => None
  | (k', v) :: rest => if str_eqb k k' then Some v else lookup k rest
  end.

(** ** Exceptions *)

Inductive exn :=
| AttributeError | TypeError | ValueError | OverflowError | IndexError
| ConnectionError | JSONDecodeError.

Inductive result (A : Type) :=
| Ok (a : A)
| Raise (e : exn).
Arguments Ok {A} a.
Arguments Raise {A} e.

Definition bind {A B : Type} (m : result A) (k : A -> result B) : result B :=
  match m with
  | Ok a => k a
  | Raise e => Raise e
  end.

Notation "x <- m ;; k" := (bind m (fun x => k))
  (at level 61, m at next level, right associativity).

(** [d.get(key, default)] of a [dict] with the items [items] *)
Definition dict_get (items : list (str * json)) (key : str) (default : json) : json :=
  match lookup key items with
  | Some v => v
  | None => default
  end.

(** [d.get(key, default)] of any value: only a [dict] has the method. *)
Definition get (d : json) (key : str) (default : json) : result json :=
  match d with
  | JObj items => Ok (dict_get items key default)
  | _ => Raise AttributeError
  end.

(** [for e in v]: the elements of a list, the characters of a string, the
    keys of a [dict]; nothing else that JSON decodes to can be iterated. *)
Definition iter (v : json) : result (list json) :=
  match v with
  | JArr items => Ok items
  | JStr s => Ok (map (fun c => JStr [c]) s)
  | JObj items => Ok (map (fun kv => JStr (fst kv)) items)
  | JNull | JBool _ | JInt _ | JFloat _ => Raise TypeError
  end.

(** ** The dictionary [best]

    Its items in the order their keys were first inserted, which is the order
    [best.items()] yields them in. *)

Definition key := (str * str * str)%type.
Definition facts := list (key * pyfloat).

Definition key_eqb (a b : key) : bool :=
  let '(s1, r1, o1) := a in
  let '(s2, r2, o2) := b in
  str_eqb s1 s2 && str_eqb r1 r2 && str_eqb o1 o2.

(** [best.get(k, default)] *)
Fixpoint best_get (best : facts) (k : key) (default : pyfloat) : pyfloat :=
  match best with
  | [] => default
  | (k', w) :: rest => if key_eqb k k' then w else best_get rest k default
  end.

(** [best[k] = w] *)
Fixpoint best_set (best : facts) (k : key) (w : pyfloat) : facts :=
  match best with
  | [] => [(k, w)]
  | (k', w') :: rest =>
      if key_eqb k k' then (k', w) :: rest else (k', w') :: best_set rest k w
  end.

(** [v in rels] for a set of strings: a list or a [dict] cannot be hashed,
    and no other value equals a string. *)
Definition contains (rels : list str) (v : json) : result bool :=
  match v with
  | JStr s => Ok (existsb (str_eqb s) rels)
  | JArr _ | JObj _ => Raise TypeError
  | JNull | JBool _ | JInt _ | JFloat _ => Ok false
  end.

(** [sorted(items, key=lambda kv: kv[1], reverse=True)]: the sort is stable,
    so on weights that are ordered (none is NaN) its result is the one that
    insertion computes: descending, items of equal weight in their first
    order. *)
Fixpoint insert_desc (x : key * pyfloat) (l : facts) : facts :=
  match l with
  | [] => [x]
  | y :: t => if fgt (snd y) (snd x) then y :: insert_desc x t else x :: y :: t
  end.

Definition sorted_desc (items : facts) : facts := fold_right insert_desc [] items.

(** The weight of the item [a] is at least that of the item [b]. *)
Definition weight_ge (a b : key * pyfloat) : Prop := fge (snd a) (snd b) = true.

(** Two weights that [>=] orders both ways: a tie of the ranking. *)
Definition same_weight (x y : pyfloat) : bool := fge x y && fge y x.

(** [l[:k]]: a negative [k] counts from the end. *)
Definition slice_to {A : Type} (k : Z) (l : list A) : list A :=
  if (k <? 0)%Z then firstn (Z.to_nat (Z.of_nat (List.length l) + k)) l
  else firstn (Z.to_nat k) l.

(** [itertools.combinations(l, 2)] *)
Fixpoint combinations2 {A : Type} (l : list A) : list (A * A) :=
  match l with
  | [] => []
  | a :: t => map (pair a) t ++ combinations2 t
  end.

(** ** The remote service

    [remote n url] is what the [n]-th request of a run gets when it asks for
    [url]: no answer, or an answer whose body decodes to JSON or does not. *)
Inductive reply :=
| Unreachable
| Body (decoded : option json).

(** ** Data of the examples *)

Definition labelled (l : string) : json := JObj [(py "label", JStr (py l))].
Arguments labelled l%_string.

Definition edge (start rel end_ : string) (weight : json) : json :=
  JObj [ (py "start", labelled start); (py "rel", labelled rel);
         (py "end", labelled end_); (py "weight", weight) ].
Arguments edge (start rel end_)%_string weight.

(** The binary64 nearest to 3.2. *)
Definition w3_2 : pyfloat := Fin (3602879701896397 # 1125899906842624).

(** A service that answers the per-object lookup of [concept], asked with the
    limit 25, with [edges] and every other request with no edge at all. *)
Definition service_for (concept : string) (edges : list json) (n : nat) (url : str)
  : reply :=
  if str_eqb url (py "https://api.conceptnet.io/c/en/" ++ py concept ++ py "?limit=25")
  then Body (Some (JObj [(py "edges", JArr edges)]))
  else Body (Some (JObj [])).
Arguments service_for concept%_string edges n%_nat url.

(** The answer for [dog] with two edges, the lighter one first, and the two
    facts they make. *)
Definition dog_answer : nat -> str -> reply :=
  service_for "dog" [ edge "dog" "AtLocation" "park" (JFloat w3_2);
                      edge "dog" "IsA" "animal" (JFloat (Fin 5)) ].

Definition dog_at_park : key * pyfloat :=
  ((py "dog", py "AtLocation", py "park"), w3_2).

Definition dog_is_animal : key * pyfloat :=
  ((py "dog", py "IsA", py "animal"), Fin 5).

(** The answer for [dog] with two edges of one weight and a heavier one
    after them, and the facts they make as the run ranks them. *)
Definition tied_answer : nat -> str -> reply :=
  service_for "dog" [ edge "dog" "AtLocation" "park" (JFloat (Fin 2));
                      edge "dog" "IsA" "animal" (JFloat (Fin 2));
                      edge "dog" "HasA" "tail" (JFloat (Fin 5)) ].

Definition tied_ranked : facts :=
  [ ((py "dog", py "HasA", py "tail"), Fin 5);
    ((py "dog", py "AtLocation", py "park"), Fin 2);
    ((py "dog", py "IsA", py "animal"), Fin 2) ].

(** A service that answers no request. *)
Definition silence (n : nat) (url : str) : reply := Unreachable.

(** An interpreter to run the examples on. The examples are ASCII strings and
    JSON numbers, which reach none of its four functions, so that any choice
    does: this one lowers and raises no other code point, reads no string as
    a float and prints every other value as the empty string. *)
Definition ascii_lower_ext (s : str) : str := s.
Definition ascii_upper_ext (c : char) : str := [c].
Definition no_float_of_str (s : str) : option pyfloat := None.
Definition no_str_of_value (v : json) : str := [].

(** ** The module *)

Definition CONCEPTNET_API : str := py "https://api.conceptnet.io".

Definition DEFAULT_RELATIONS : list str :=
  [ py "IsA"; py "PartOf"; py "HasA";
    py "UsedFor"; py "CapableOf"; py "ReceivesAction";
    py "AtLocation"; py "LocatedNear"; py "HasProperty" ].

Section Interpreter.

(** What the interpreter supplies and the module does not define:
    [str.lower] of a string that has a code point from U+0100 on, [str.upper]
    of such a code point, [float] of a string (none when it raises
    [ValueError]) and [str] of a value that is not a string. *)
Variable lower_ext : str -> str.
Variable upper_ext : char -> str.
Variable float_of_str : str -> option pyfloat.
Variable str_of_value : json -> str.

(** [s.lower()] *)
Definition lower (s : str) : str :=
  if latin1 s then map lower_latin1 s else lower_ext s.

(** [c.upper()] of a string of one character *)
Definition upper1 (c : char) : str :=
  if c <? 256 then upper_latin1 c else upper_ext c.

(** [str(v)] *)
Definition str_ (v : json) : str :=
  match v with
  | JStr s => s
  | _ => str_of_value v
  end.

(** [float(v)] *)
Definition float_ (v : json) : result pyfloat :=
  match v with
  | JFloat f => Ok f
  | JInt z =>
      match float_of_int z with
      | Some f => Ok f
      | None => Raise OverflowError
      end
  | JBool b => Ok (Fin (if b then 1 else 0))
  | JStr s =>
      match float_of_str s with
      | Some f => Ok f
      | None => Raise ValueError
      end
  | JNull | JArr _ | JObj _ => Raise TypeError
  end.

Definition _norm (s : str) : str :=
  let s := lower (strip s) in
  let s := re_sub_spaces (py "_") s in
  let s := re_sub_nonident s in
  s.

Definition _to_en_uri (concept : str) : str := py "/c/en/" ++ _norm concept.

(** The identifier as the specification words it, read off a trimmed and
    lowercased string in one pass: a run of white space leaves one
    underscore, a character of [[a-z0-9_]] stays and any other character
    goes. [in_run] tells that the previous character was white space. *)
Fixpoint identifier_of (in_run : bool) (s : str) : str :=
  match s with
  | [] => []
  | c :: t =>
      if isspace c then (if in_run then [] else [95]) ++ identifier_of true t
      else (if isident c then [c] else []) ++ identifier_of false t
  end.

Definition _as_label (e : json) : str :=
  match e with
  | JObj items =>
      let label := dict_get items (py "label") JNull in
      if truthy label then strip (str_ label)
      else
        match dict_get items (py "@id") JNull with
        | JStr _id => strip (replace_underscores (last_field 47 _id))
        | _ => []
        end
  | _ => []
  end.

Definition _weight (edge : json) : result pyfloat :=
  w <- get edge (py "weight") (JFloat (Fin 0)) ;;
  match float_ w with
  | Ok f => Ok f
  | Raise _ => Ok (Fin 0)
  end.

(** [phrase or ""] is [phrase], the empty string being the one falsy
    string; so is [noun or ""] below. *)
Definition _choose_article (phrase : str) : str :=
  let w := lower (strip phrase) in
  match w with
  | [] => py "a"
  | c :: _ => if existsb (N.eqb c) (py "aeiou") then py "an" else py "a"
  end.

Definition _maybe_article (noun : str) : str :=
  let n := strip noun in
  match n with
  | [] => n
  | _ :: _ =>
      let lower := lower n in
      if startswith_any lower
           [py "a "; py "an "; py "the "; py "this "; py "that "; py "these "; py "those "]
      then n
      else if endswith lower (py "s") && negb (endswith_any lower [py "ss"; py "us"])
      then n
      else _choose_article n ++ py " " ++ n
  end.

Definition REL_TEMPLATES : list (str * (str -> str -> str)) :=
  [ (py "IsA", fun s o =>
       _maybe_article s ++ py " is " ++
       (if negb (startswith_any (lower o) [py "a "; py "an "; py "the "])
        then _maybe_article o else o));
    (py "PartOf", fun s o => _maybe_article s ++ py " is part of " ++ _maybe_article o);
    (py "HasA", fun s o => _maybe_article s ++ py " has " ++ _maybe_article o);
    (py "UsedFor", fun s o => _maybe_article s ++ py " is used for " ++ o);
    (py "CapableOf", fun s o => _maybe_article s ++ py " can " ++ o);
    (py "ReceivesAction", fun s o => _maybe_article s ++ py " can be " ++ o);
    (py "AtLocation", fun s o =>
       _maybe_article s ++ py " is often found in " ++ _maybe_article o);
    (py "LocatedNear", fun s o =>
       _maybe_article s ++ py " is often near " ++ _maybe_article o);
    (py "HasProperty", fun s o => _maybe_article s ++ py " can be " ++ o) ].

(** The last two statements of [_edge_to_sentence]: the light cleanup, then
    the sentence case and the period; [sent[0]] of an empty sentence raises. *)
Definition finish_sentence (sent : str) : result str :=
  let sent := strip (re_sub_spaces (py " ") sent) in
  match sent with
  | [] => Raise IndexError
  | c :: rest => Ok (upper1 c ++ rest ++ py ".")
  end.

Definition _edge_to_sentence (start rel end_ : str) : result str :=
  let start := strip (replace_underscores start) in
  let end_ := strip (replace_underscores end_) in
  let sent :=
    match lookup rel REL_TEMPLATES with
    | Some template => template start end_
    | None => _maybe_article start ++ py " " ++ rel ++ py " " ++ end_
    end in
  finish_sentence sent.

(** [_edge_to_sentence] makes its sentence of [text]: the cleanup of [text]
    leaves a first character and a rest, the first character is put in upper
    case and the period is appended. *)
Definition renders_as (start rel end_ text : str) : Prop :=
  exists c rest,
    strip (re_sub_spaces (py " ") text) = c :: rest
    /\ _edge_to_sentence start rel end_ = Ok (upper1 c ++ rest ++ py ".").

(** The loop that removes repeated objects; [seen] is the set built so far. *)
Fixpoint dedup_objects (objects : list str) (seen : list str) : list str :=
  match objects with
  | [] => []
  | o :: rest =>
      let o2 := strip o in
      if negb (str_eqb o2 []) && negb (existsb (str_eqb (lower o2)) seen)
      then o2 :: dedup_objects rest (lower o2 :: seen)
      else dedup_objects rest seen
  end.

Section Call.

Variable remote : nat -> str -> reply.
Variable rels : list str.
Variable per_object_limit pair_limit : Z.
Variable min_weight : pyfloat.

(** [requests.get(url)] as the [n]-th request *)
Definition requests_get (n : nat) (url : str) : result (option json) :=
  match remote n url with
  | Unreachable => Raise ConnectionError
  | Body b => Ok b
  end.

(** [response.json()] *)
Definition json_ (body : option json) : result json :=
  match body with
  | Some v => Ok v
  | None => Raise JSONDecodeError
  end.

Definition keep_edge (e : json) : result bool :=
  r <- get e (py "rel") (JObj []) ;;
  rel <- get r (py "label") JNull ;;
  member <- contains rels rel ;;
  if member then (w <- _weight e ;; Ok (fge w min_weight)) else Ok false.

(** A label that is not a string is no member of [rels], so [keep_edge] has
    dropped its edge before [add_edge_fact] sees it; the keys of [best] are
    triples of strings, as the annotation of [best] says, and the model
    raises where a truthy label of another type would make another kind of
    key. *)
Definition add_edge_fact (e : json) (best : facts) : result facts :=
  s <- get e (py "start") (JObj []) ;;
  let start := _as_label s in
  r <- get e (py "rel") (JObj []) ;;
  rel <- get r (py "label") (JStr []) ;;
  en <- get e (py "end") (JObj []) ;;
  let end_ := _as_label en in
  if negb (negb (str_eqb start []) && truthy rel && negb (str_eqb end_ []))
  then Ok best
  else
    match rel with
    | JStr rel =>
        let key := (start, rel, end_) in
        w <- _weight e ;;
        if fgt w (best_get best key (Fin (-1)))
        then Ok (best_set best key w)
        else Ok best
    | _ => Raise TypeError
    end.

(** [for e in edges: if keep_edge(e): add_edge_fact(e)] *)
Fixpoint for_edges (edges : list json) (best : facts) : result facts :=
  match edges with
  | [] => Ok best
  | e :: rest =>
      keep <- keep_edge e ;;
      best <- (if keep then add_edge_fact e best else Ok best) ;;
      for_edges rest best
  end.

(** [data.get("edges") or []], ready to be iterated *)
Definition edges_of (data : json) : result (list json) :=
  v <- get data (py "edges") JNull ;;
  if truthy v then iter v else Ok [].

Definition object_url (uri : str) : str :=
  CONCEPTNET_API ++ uri ++ py "?limit=" ++ str_of_int per_object_limit.

(** The request whose answer is only printed. *)
Definition printed_url (uri : str) : str :=
  CONCEPTNET_API ++ py "/query?start=" ++ uri ++ py "?limit="
  ++ str_of_int per_object_limit.

Definition pair_url (a_uri b_uri : str) : str :=
  CONCEPTNET_API ++ py "/query?node=" ++ a_uri ++ py "&other=" ++ b_uri
  ++ py "&limit=" ++ str_of_int pair_limit.

(** 1) per-object edges; [n] counts the requests made so far. *)
Fixpoint per_object_edges (objs : list str) (n : nat) (best : facts)
  : result (nat * facts) :=
  match objs with
  | [] => Ok (n, best)
  | obj :: rest =>
      let uri := _to_en_uri obj in
      _ <- requests_get n (printed_url uri) ;;
      response <- requests_get (S n) (object_url uri) ;;
      data <- json_ response ;;
      edges <- edges_of data ;;
      best <- for_edges edges best ;;
      per_object_edges rest (S (S n)) best
  end.

(** 2) direct links between every pair of objects *)
Fixpoint pair_edges (pairs : list (str * str)) (n : nat) (best : facts)
  : result (nat * facts) :=
  match pairs with
  | [] => Ok (n, best)
  | (a, b) :: rest =>
      response <- requests_get n (pair_url (_to_en_uri a) (_to_en_uri b)) ;;
      data <- json_ response ;;
      edges <- edges_of data ;;
      best <- for_edges edges best ;;
      pair_edges rest (S n) best
  end.

(** The value of [best] when both loops are over. *)
Definition collect (objs : list str) : result facts :=
  st <- per_object_edges objs 0%nat [] ;;
  st <- pair_edges (combinations2 objs) (fst st) (snd st) ;;
  Ok (snd st).

(** *** What the properties speak of *)

(** The edges of the answer to the [n]-th request, none when it brings
    none. *)
Definition edges_at (n : nat) (url : str) : list json :=
  match remote n url with
  | Body (Some data) =>
      match edges_of data with
      | Ok edges => edges
      | Raise _ => []
      end
  | _ => []
  end.

Fixpoint fetched_per_object (objs : list str) (n : nat) : list json :=
  match objs with
  | [] => []
  | obj :: rest =>
      edges_at (S n) (object_url (_to_en_uri obj)) ++ fetched_per_object rest (S (S n))
  end.

Fixpoint fetched_pairs (pairs : list (str * str)) (n : nat) : list json :=
  match pairs with
  | [] => []
  | (a, b) :: rest =>
      edges_at n (pair_url (_to_en_uri a) (_to_en_uri b)) ++ fetched_pairs rest (S n)
  end.

(** Every edge the run meets: those of the per-object phase, then those of
    the pairwise phase. *)
Definition fetched (objs : list str) : list json :=
  fetched_per_object objs 0%nat
  ++ fetched_pairs (combinations2 objs) (2 * List.length objs)%nat.

(** The requests of a run over [objs], each with its number: those whose
    answer is printed, those of the per-object lookups and those of the
    pairs. *)
Fixpoint printed_requests (objs : list str) (n : nat) : list (nat * str) :=
  match objs with
  | [] => []
  | obj :: rest => (n, printed_url (_to_en_uri obj)) :: printed_requests rest (S (S n))
  end.

Fixpoint object_requests (objs : list str) (n : nat) : list (nat * str) :=
  match objs with
  | [] => []
  | obj :: rest => (S n, object_url (_to_en_uri obj)) :: object_requests rest (S (S n))
  end.

Fixpoint pair_requests (pairs : list (str * str)) (n : nat) : list (nat * str) :=
  match pairs with
  | [] => []
  | (a, b) :: rest =>
      (n, pair_url (_to_en_uri a) (_to_en_uri b)) :: pair_requests rest (S n)
  end.

(** The fact key and the weight of an edge whose three labels resolve to
    strings that are not empty. *)
Definition edge_fact (e : json) : option (key * pyfloat) :=
  match e with
  | JObj items =>
      let start := _as_label (dict_get items (py "start") (JObj [])) in
      let end_ := _as_label (dict_get items (py "end") (JObj [])) in
      match dict_get items (py "rel") (JObj []) with
      | JObj r =>
          match dict_get r (py "label") (JStr []), _weight e with
          | JStr rel, Ok w =>
              if negb (str_eqb start []) && negb (str_eqb rel []) && negb (str_eqb end_ [])
              then Some ((start, rel, end_), w)
              else None
          | _, _ => None
          end
      | _ => None
      end
  | _ => None
  end.

(** The edge passes the filter. *)
Definition kept (e : json) : Prop := keep_edge e = Ok true.

(** Some edge of [edges] that passes the filter has the fact key [k] and the
    weight [w]. *)
Definition seen_with (edges : list json) (k : key) (w : pyfloat) : Prop :=
  exists e, In e edges /\ kept e /\ edge_fact e = Some (k, w).

(** [best] is what the edges [edges] leave in the dictionary: no key twice;
    each key with a weight that some kept edge of that key has and that is
    at least the weight of every kept edge of that key; and a key for every
    kept edge whose weight is greater than -1.0. *)
Definition holds_best (edges : list json) (best : facts) : Prop :=
  NoDup (map fst best)
  /\ (forall k w, In (k, w) best ->
        seen_with edges k w
        /\ forall w', seen_with edges k w' -> fge w w' = true)
  /\ (forall k w, seen_with edges k w -> fgt w (Fin (-1)) = true ->
        In k (map fst best)).

(** The key for which the edge [e] can open an entry of the dictionary: the
    edge passes the filter, its labels resolve, and its weight is greater
    than the -1.0 that [best.get] answers for a key that is not there. *)
Definition storable (e : json) : option key :=
  match keep_edge e, edge_fact e with
  | Ok true, Some (k, w) => if fgt w (Fin (-1)) then Some k else None
  | _, _ => None
  end.

(** The keys in the order in which the edges [edges] first store them, after
    the keys [keys] that are there already. *)
Fixpoint first_stored (edges : list json) (keys : list key) : list key :=
  match edges with
  | [] => keys
  | e :: rest =>
      first_stored rest
        (match storable e with
         | Some k => if existsb (key_eqb k) keys then keys else keys ++ [k]
         | None => keys
         end)
  end.

End Call.

(** [[_edge_to_sentence(s, r, o) for (s, r, o), _w in ranked]] *)
Fixpoint sentences (ranked : facts) : result (list str) :=
  match ranked with
  | [] => Ok []
  | ((s, r, o), _w) :: rest =>
      sent <- _edge_to_sentence s r o ;;
      sents <- sentences rest ;;
      Ok (sent :: sents)
  end.

(** [relations or DEFAULT_RELATIONS] *)
Definition rels_of (relations : option (list str)) : list str :=
  match relations with
  | Some (r :: rs) => r :: rs
  | Some [] | None => DEFAULT_RELATIONS
  end.

(** The value of [ranked]. *)
Definition ranked_facts (remote : nat -> str -> reply) (objects : list str)
    (relations : option (list str)) (per_object_limit pair_limit : Z)
    (min_weight : pyfloat) (max_facts : Z) : result facts :=
  let rels := rels_of relations in
  let objs := dedup_objects objects [] in
  best <- collect remote rels per_object_limit pair_limit min_weight objs ;;
  Ok (slice_to max_facts (sorted_desc best)).

Definition get_conceptnet_facts_for_image (remote : nat -> str -> reply)
    (objects : list str) (relations : option (list str))
    (per_object_limit pair_limit : Z) (min_weight : pyfloat) (max_facts : Z)
    : result (list str) :=
  ranked <- ranked_facts remote objects relations per_object_limit pair_limit
              min_weight max_facts ;;
  sentences ranked.

(** * Properties *)

(** ** Equality tests *)

Lemma str_eqb_eq (a b : str) : str_eqb a b = true <-> a = b.
Proof.
  revert b; induction a as [|x a IH]; intros [|y b]; simpl; split; intro H;
    try reflexivity; try discriminate.
  - apply andb_true_iff in H as [Hxy Hab].
    apply N.eqb_eq in Hxy. apply IH in Hab. now subst.
  - injection H as -> ->. rewrite N.eqb_refl. now apply IH.
Qed.

Lemma str_eqb_refl (a : str) : str_eqb a a = true.
Proof. now apply str_eqb_eq. Qed.

Lemma str_eqb_nil (a : str) : str_eqb a [] = false <-> a <> [].
Proof.
  destruct a; simpl; split; intro H; try discriminate; try reflexivity.
  now contradiction H.
Qed.

Lemma key_eqb_eq (a b : key) : key_eqb a b = true <-> a = b.
Proof.
  destruct a as [[s1 r1] o1], b as [[s2 r2] o2]; unfold key_eqb.
  rewrite !andb_true_iff, !str_eqb_eq. split.
  - intros [[-> ->] ->]. reflexivity.
  - intros [= -> -> ->]. auto.
Qed.

Lemma key_eqb_refl (a : key) : key_eqb a a = true.
Proof. now apply key_eqb_eq. Qed.

Lemma key_eqb_neq (a b : key) : key_eqb a b = false <-> a <> b.
Proof.
  split.
  - intros H E. apply key_eqb_eq in E. congruence.
  - intro H. destruct (key_eqb a b) eqn:E; [|reflexivity].
    apply key_eqb_eq in E. contradiction.
Qed.

(** ** The order of floats *)

Lemma fgt_ordered (x y : pyfloat) : fgt x y = true -> ordered x /\ ordered y.
Proof.
  destruct x, y; unfold fgt, ordered; simpl; intros H; split;
    solve [discriminate | intro; discriminate].
Qed.

Lemma fge_ordered (x y : pyfloat) : fge x y = true -> ordered x /\ ordered y.
Proof.
  destruct x, y; unfold fge, ordered; simpl; intros H; split;
    solve [discriminate | intro; discriminate].
Qed.

Lemma fge_refl (x : pyfloat) : ordered x -> fge x x = true.
Proof.
  destruct x; unfold ordered, fge; simpl; intros; try congruence.
  now rewrite (proj1 (Qeq_alt q q) (Qeq_refl q)).
Qed.

Lemma fgt_fge (x y : pyfloat) : fgt x y = true -> fge x y = true.
Proof.
  unfold fgt, fge. destruct (fcompare x y) as [[]|]; congruence.
Qed.

(** Of two floats that are no NaN, one is at least the other. *)
Lemma fge_total (x y : pyfloat) :
  ordered x -> ordered y -> fgt x y = false -> fge y x = true.
Proof.
  destruct x, y; unfold ordered, fgt, fge; simpl; intros; try congruence.
  rewrite <- (Qcompare_antisym q q0). destruct (q ?= q0)%Q; simpl in *; congruence.
Qed.

Lemma Qle_of_fge (a b : Q) : fge (Fin a) (Fin b) = true <-> (b <= a)%Q.
Proof.
  unfold fge; simpl. rewrite Qle_alt, <- (Qcompare_antisym b a).
  destruct (b ?= a)%Q; simpl; split; intro H;
    solve [reflexivity | discriminate | now contradiction H].
Qed.

Lemma fge_trans (x y z : pyfloat) :
  fge x y = true -> fge y z = true -> fge x z = true.
Proof.
  destruct x as [| |a|], y as [| |b|], z as [| |c|];
    try (unfold fge; simpl; congruence).
  rewrite !Qle_of_fge. intros H1 H2. eapply Qle_trans; eauto.
Qed.

Lemma Qlt_of_fgt (a b : Q) : fgt (Fin a) (Fin b) = true <-> (b < a)%Q.
Proof.
  unfold fgt; simpl. rewrite Qlt_alt, <- (Qcompare_antisym b a).
  destruct (b ?= a)%Q; simpl; split; intro H;
    solve [reflexivity | discriminate].
Qed.

Lemma fge_fgt_trans (x y z : pyfloat) :
  fge x y = true -> fgt y z = true -> fgt x z = true.
Proof.
  destruct x as [| |a|], y as [| |b|], z as [| |c|];
    try (unfold fge, fgt; simpl; congruence).
  rewrite Qle_of_fge, !Qlt_of_fgt. intros H1 H2. eapply Qlt_le_trans; eauto.
Qed.

Lemma fgt_fge_trans (x y z : pyfloat) :
  fgt x y = true -> fge y z = true -> fge x z = true.
Proof. intros H. apply fge_trans. now apply fgt_fge. Qed.

(** ** Trimming and white space *)

Lemma lstrip_head (s : str) :
  lstrip s = [] \/ exists c t, lstrip s = c :: t /\ isspace c = false.
Proof.
  induction s as [|c t IH]; simpl; [now left|].
  destruct (isspace c) eqn:E; [exact IH|]. right. now exists c, t.
Qed.

Lemma lstrip_fixed (c : char) (t : str) : isspace c = false -> lstrip (c :: t) = c :: t.
Proof. intro H. simpl. now rewrite H. Qed.

Lemma lstrip_idem (s : str) : lstrip (lstrip s) = lstrip s.
Proof.
  destruct (lstrip_head s) as [E | (c & t & E & H)]; rewrite E; [reflexivity|].
  now apply lstrip_fixed.
Qed.

Lemma lstrip_snoc (s : str) (c : char) :
  isspace c = false -> lstrip (s ++ [c]) = lstrip s ++ [c].
Proof.
  intro H. induction s as [|d t IH]; simpl.
  - now rewrite H.
  - destruct (isspace d); [exact IH | reflexivity].
Qed.

Lemma rstrip_cons (c : char) (t : str) :
  isspace c = false -> rstrip (c :: t) = c :: rstrip t.
Proof.
  intro H. unfold rstrip. simpl rev at 2.
  now rewrite lstrip_snoc, rev_app_distr.
Qed.

Lemma rstrip_idem (s : str) : rstrip (rstrip s) = rstrip s.
Proof. unfold rstrip. now rewrite rev_involutive, lstrip_idem. Qed.

(** A trimmed string is empty or starts with a character that is no white
    space, and trimming it again changes nothing. *)
Lemma strip_head (s : str) :
  strip s = [] \/ exists c t, strip s = c :: t /\ isspace c = false.
Proof.
  unfold strip. destruct (lstrip_head s) as [E | (c & t & E & H)]; rewrite E.
  - now left.
  - right. exists c, (rstrip t). split; [now apply rstrip_cons | exact H].
Qed.

Lemma strip_idem (s : str) : strip (strip s) = strip s.
Proof.
  unfold strip. destruct (lstrip_head s) as [E | (c & t & E & H)]; rewrite E;
    [reflexivity|].
  rewrite (rstrip_cons c t H), (lstrip_fixed c _ H), (rstrip_cons c _ H).
  now rewrite rstrip_idem.
Qed.

Lemma lstrip_keeps (c : char) (s : str) :
  In c s -> isspace c = false -> In c (lstrip s).
Proof.
  intros Hin Hc. induction s as [|d t IH]; simpl in *; [contradiction|].
  destruct (isspace d) eqn:E.
  - destruct Hin as [-> | Hin]; [congruence | now apply IH].
  - exact Hin.
Qed.

Lemma strip_keeps (c : char) (s : str) :
  In c s -> isspace c = false -> In c (strip s).
Proof.
  intros Hin Hc. unfold strip, rstrip.
  apply (proj1 (in_rev _ _)), lstrip_keeps; [|exact Hc].
  apply (proj1 (in_rev _ _)). now apply lstrip_keeps.
Qed.

Lemma sub_spaces_keeps (rep : str) (b : bool) (c : char) (s : str) :
  In c s -> isspace c = false -> In c (sub_spaces rep b s).
Proof.
  intros Hin Hc. revert b. induction s as [|d t IH]; intro b; simpl in *;
    [contradiction|].
  destruct (isspace d) eqn:E.
  - apply in_or_app. right. destruct Hin as [-> | Hin]; [congruence | now apply IH].
  - destruct Hin as [-> | Hin]; [now left | right; now apply IH].
Qed.

Lemma strip_blank (s : str) : Forall (fun c => isspace c = true) s -> strip s = [].
Proof.
  intro H. unfold strip.
  replace (lstrip s) with (@nil char); [reflexivity|].
  induction H as [|c t Hc _ IH]; simpl; [reflexivity|]. now rewrite Hc.
Qed.

(** ** The normaliser *)

Lemma identifier_of_sub_spaces (b : bool) (s : str) :
  re_sub_nonident (sub_spaces (py "_") b s) = identifier_of b s.
Proof.
  unfold re_sub_nonident. revert b.
  induction s as [|c t IH]; intro b; simpl; [reflexivity|].
  destruct (isspace c).
  - rewrite filter_app, IH. now destruct b.
  - simpl. rewrite IH. now destruct (isident c).
Qed.

Lemma identifier_of_invalid (b : bool) (s : str) :
  Forall (fun c => isspace c = false /\ isident c = false) s ->
  identifier_of b s = [].
Proof.
  intro H. revert b. induction H as [|c t [Hs Hi] _ IH]; intro b; simpl;
    [reflexivity|].
  now rewrite Hs, Hi, IH.
Qed.

(** C7, as amended. For every string [s], [_norm s] is the identifier of the
    trimmed and lowercased [s]: each run of white space has become one
    underscore and every character outside [[a-z0-9_]] is gone, so that only
    characters of [[a-z0-9_]] are left. The function is total: there is no
    input it fails on. The empty string, a string of white space, and a
    string whose trimmed and lowercased form has neither white space nor a
    character of [[a-z0-9_]], normalise to the empty string; white space
    between two characters that go leaves its underscore, so that ["! !"]
    normalises to ["_"]. ["Golden Retriever"] normalises to
    ["golden_retriever"] and ["cafe!!"] with U+00E9 for its [e] to ["caf"]. *)
Theorem norm_is_identifier (s : str) :
  _norm s = identifier_of false (lower (strip s))
  /\ Forall (fun c => isident c = true) (_norm s)
  /\ (Forall (fun c => isspace c = false /\ isident c = false) (lower (strip s)) ->
      _norm s = [])
  /\ (Forall (fun c => isspace c = true) s -> _norm s = [])
  /\ _norm [] = []
  /\ _norm (py "! !") = py "_"
  /\ _norm (py "Golden Retriever") = py "golden_retriever"
  /\ _norm (py "caf" ++ [233] ++ py "!!") = py "caf".
Proof.
  assert (E : _norm s = identifier_of false (lower (strip s))).
  { unfold _norm, re_sub_spaces. apply identifier_of_sub_spaces. }
  split; [exact E|]. split; [|split; [|split; [|split; [|split; [|split]]]]].
  - unfold _norm, re_sub_nonident. apply Forall_forall. intros c Hc.
    now apply filter_In in Hc.
  - intro H. rewrite E. now apply identifier_of_invalid.
  - intro H. rewrite E, (strip_blank s H). reflexivity.
  - reflexivity.
  - vm_compute. reflexivity.
  - vm_compute. reflexivity.
  - vm_compute. reflexivity.
Qed.

(** ** The article heuristic *)

Lemma choose_article_first (n : str) :
  _choose_article n =
  match lower (strip n) with
  | c :: _ => if existsb (N.eqb c) (py "aeiou") then py "an" else py "a"
  | [] => py "a"
  end.
Proof. unfold _choose_article. now destruct (lower (strip n)). Qed.

(** C9, as amended. Let [n] be the trimmed phrase and [l] its lower case.
    [_maybe_article] returns [n] as it is when [n] is empty, when [l] starts
    with a determiner followed by a space (["a "], ["an "], ["the "],
    ["this "], ["that "], ["these "], ["those "]), and when [l] ends in ["s"]
    but neither in ["ss"] nor in ["us"]. In every other case it returns [n]
    with an article and a space before it: ["an"] when [l] starts with one of
    [a], [e], [i], [o], [u], and ["a"] otherwise. So ["apple"] becomes
    ["an apple"] and ["dog"] becomes ["a dog"], while ["the park"] and
    ["cats"] stay. *)
Theorem maybe_article_cases (noun : str) :
  let n := strip noun in
  let l := lower n in
  let determiners :=
    [py "a "; py "an "; py "the "; py "this "; py "that "; py "these "; py "those "] in
  (n = [] -> _maybe_article noun = n)
  /\ (startswith_any l determiners = true -> _maybe_article noun = n)
  /\ (endswith l (py "s") = true -> endswith l (py "ss") = false ->
      endswith l (py "us") = false -> _maybe_article noun = n)
  /\ (n <> [] -> startswith_any l determiners = false ->
      endswith l (py "s") = false \/ endswith l (py "ss") = true
        \/ endswith l (py "us") = true ->
      _maybe_article noun =
      (match l with
       | c :: _ => if existsb (N.eqb c) (py "aeiou") then py "an" else py "a"
       | [] => py "a"
       end) ++ py " " ++ n)
  /\ _maybe_article (py "apple") = py "an apple"
  /\ _maybe_article (py "dog") = py "a dog"
  /\ _maybe_article (py "the park") = py "the park"
  /\ _maybe_article (py "cats") = py "cats".
Proof.
  intros n l determiners.
  assert (U : _maybe_article noun =
              match n with
              | [] => n
              | _ :: _ =>
                  if startswith_any l determiners then n
                  else if endswith l (py "s")
                          && negb (endswith_any l [py "ss"; py "us"])
                  then n
                  else _choose_article n ++ py " " ++ n
              end) by reflexivity.
  assert (Hn : strip n = n) by apply strip_idem.
  assert (Hl : l = lower n) by reflexivity.
  clearbody determiners l n.
  split; [|split; [|split; [|split; [|split; [|split; [|split]]]]]].
  - intro E. rewrite U, E. reflexivity.
  - intro D. rewrite U, D. now destruct n.
  - intros S SS US. rewrite U, S. unfold endswith_any. simpl existsb.
    rewrite SS, US. simpl. destruct n; [reflexivity|].
    now destruct (startswith_any l determiners).
  - intros N D P. rewrite U, D. destruct n as [|c t]; [now contradiction N|].
    assert (F : endswith l (py "s") && negb (endswith_any l [py "ss"; py "us"]) = false).
    { unfold endswith_any. simpl existsb.
      destruct P as [-> | [-> | ->]]; [reflexivity | |].
      - now rewrite andb_false_r.
      - rewrite orb_true_r. now rewrite andb_false_r. }
    rewrite F, choose_article_first, Hn, <- Hl. reflexivity.
  - vm_compute. reflexivity.
  - vm_compute. reflexivity.
  - vm_compute. reflexivity.
  - vm_compute. reflexivity.
Qed.

(** ** The renderer *)

Lemma lookup_none {A : Type} (k : str) (items : list (str * A)) :
  ~ In k (map fst items) -> lookup k items = None.
Proof.
  induction items as [|[k' v] rest IH]; simpl; intro H; [reflexivity|].
  destruct (str_eqb k k') eqn:E.
  - apply str_eqb_eq in E. subst. contradiction H. now left.
  - apply IH. intro Hin. apply H. now right.
Qed.

(** The nine relations that have a template are the default relations. *)
Lemma known_relations : map fst REL_TEMPLATES = DEFAULT_RELATIONS.
Proof. reflexivity. Qed.

(** A text with a character that is no white space leaves a sentence. *)
Lemma renders_visible (start rel end_ text : str) (c : char) :
  _edge_to_sentence start rel end_ = finish_sentence text ->
  In c text -> isspace c = false ->
  renders_as start rel end_ text.
Proof.
  intros E Hin Hc. unfold renders_as. rewrite E. unfold finish_sentence.
  assert (V : In c (strip (re_sub_spaces (py " ") text))).
  { apply strip_keeps; [|exact Hc]. now apply sub_spaces_keeps. }
  destruct (strip (re_sub_spaces (py " ") text)) as [|d rest]; [contradiction|].
  now exists d, rest.
Qed.

Ltac by_template letter :=
  apply renders_visible with (c := letter);
  [ reflexivity
  | apply in_or_app; right; apply in_or_app; left; right; left; reflexivity
  | reflexivity ].

(** C1, as amended. For a relation label that is none of the nine of
    [REL_TEMPLATES], the sentence is made of the fallback text: the subject
    with the article that [_maybe_article] gives it, a space, the relation
    label as it is, a space, and the object without an article. A label with
    a character that is no white space always leaves a sentence. With
    ["Antonym"] among the caller's relations, the edge (hot, Antonym, cold)
    is rendered as ["A hot Antonym cold."]; with the default relations it is
    dropped. *)
Theorem unknown_relation_renders_fallback (start rel end_ : str) :
  ~ In rel (map fst REL_TEMPLATES) ->
  let s := strip (replace_underscores start) in
  let o := strip (replace_underscores end_) in
  let text := _maybe_article s ++ py " " ++ rel ++ py " " ++ o in
  _edge_to_sentence start rel end_ = finish_sentence text
  /\ ((exists c, In c rel /\ isspace c = false) -> renders_as start rel end_ text)
  /\ _edge_to_sentence (py "hot") (py "Antonym") (py "cold")
     = Ok (py "A hot Antonym cold.")
  /\ get_conceptnet_facts_for_image
       (service_for "hot" [edge "hot" "Antonym" "cold" (JFloat (Fin 2))])
       [py "hot"] (Some [py "Antonym"]) 25 25 (Fin 1) 40
     = Ok [py "A hot Antonym cold."]
  /\ get_conceptnet_facts_for_image
       (service_for "hot" [edge "hot" "Antonym" "cold" (JFloat (Fin 2))])
       [py "hot"] None 25 25 (Fin 1) 40
     = Ok [].
Proof.
  intros H s o text.
  assert (E : _edge_to_sentence start rel end_ = finish_sentence text).
  { unfold _edge_to_sentence. now rewrite (lookup_none rel REL_TEMPLATES H). }
  split; [exact E|]. split; [|split; [|split]].
  - intros (c & Hin & Hc). apply renders_visible with (c := c); [exact E| |exact Hc].
    unfold text. apply in_or_app. right. apply in_or_app. right.
    apply in_or_app. now left.
  - vm_compute. reflexivity.
  - vm_compute. reflexivity.
  - vm_compute. reflexivity.
Qed.

(** ** The filter *)

Lemma existsb_str_eqb (s : str) (l : list str) :
  existsb (str_eqb s) l = true <-> In s l.
Proof.
  rewrite existsb_exists. split.
  - intros (x & Hin & E). apply str_eqb_eq in E. now subst.
  - intro Hin. exists s. split; [exact Hin | apply str_eqb_refl].
Qed.

Lemma weight_of_dict (items : list (str * json)) :
  _weight (JObj items) =
  Ok (match float_ (dict_get items (py "weight") (JFloat (Fin 0))) with
      | Ok f => f
      | Raise _ => Fin 0
      end).
Proof.
  unfold _weight. simpl.
  now destruct (float_ (dict_get items (py "weight") (JFloat (Fin 0)))).
Qed.

(** What [keep_edge] has read of an edge that it keeps. *)
Lemma keep_edge_true (rels : list str) (min_weight : pyfloat) (e : json) :
  keep_edge rels min_weight e = Ok true <->
  exists items r label w,
    e = JObj items
    /\ dict_get items (py "rel") (JObj []) = JObj r
    /\ dict_get r (py "label") JNull = JStr label
    /\ In label rels
    /\ _weight e = Ok w
    /\ fge w min_weight = true.
Proof.
  split.
  - unfold keep_edge. destruct e as [| | | | |l|items]; simpl; try discriminate.
    destruct (dict_get items (py "rel") (JObj [])) as [| | | | |l|r] eqn:R; simpl;
      try discriminate.
    destruct (dict_get r (py "label") JNull) as [| | | |label|l|l] eqn:L; simpl;
      try discriminate.
    destruct (existsb (str_eqb label) rels) eqn:M; try discriminate.
    rewrite weight_of_dict. simpl. intro H. injection H as H.
    exists items, r, label. eexists.
    split; [reflexivity|]. split; [exact R|]. split; [exact L|].
    split; [now apply existsb_str_eqb|]. split; [reflexivity | exact H].
  - intros (items & r & label & w & -> & R & L & M & W & G).
    unfold keep_edge. simpl. rewrite R. simpl. rewrite L. simpl.
    apply existsb_str_eqb in M. rewrite M, W. simpl. now rewrite G.
Qed.

(** [float] of an [int] is exact below 2^53 and raises from 2^1024 on. *)
Lemma float_of_int_exact (z : Z) :
  (Z.abs z < 2 ^ 53)%Z -> float_of_int z = Some (Fin (inject_Z z)).
Proof.
  intro H. unfold float_of_int. cbv zeta.
  replace (Z.log2 (Z.abs z) + 1 <=? 53)%Z with true; [reflexivity|].
  symmetry. apply Z.leb_le.
  destruct (Z.eq_dec (Z.abs z) 0) as [E | E]; [now rewrite E|].
  assert (P : (0 < Z.abs z)%Z) by lia.
  apply (Z.log2_lt_pow2 _ 53 P) in H. lia.
Qed.

Lemma float_of_int_overflow (z : Z) :
  (2 ^ 1024 <= Z.abs z)%Z -> float_of_int z = None.
Proof.
  intro H. unfold float_of_int. cbv zeta.
  set (a := Z.abs z) in *. set (l := Z.log2 a).
  assert (P : (0 < a)%Z).
  { apply Z.lt_le_trans with (2 ^ 1024)%Z; [now apply Z.pow_pos_nonneg | exact H]. }
  assert (L : (1024 <= l)%Z) by (apply Z.log2_le_pow2; [exact P | exact H]).
  replace (l + 1 <=? 53)%Z with false by (symmetry; apply Z.leb_gt; lia).
  set (sh := (l + 1 - 53)%Z).
  set (q := Z.shiftr a sh).
  set (r := Z.land a (Z.ones sh)).
  set (q' := if (2 ^ (sh - 1) <? r)%Z || ((r =? 2 ^ (sh - 1))%Z && Z.odd q)
             then (q + 1)%Z else q).
  assert (Q : (2 ^ 52 <= q)%Z).
  { unfold q. rewrite Z.shiftr_div_pow2 by lia.
    apply Z.div_le_lower_bound; [apply Z.pow_pos_nonneg; lia|].
    rewrite Z.mul_comm, <- Z.pow_add_r by lia.
    replace (52 + sh)%Z with l by lia.
    apply (Z.log2_spec a P). }
  assert (Q' : (q <= q')%Z) by (unfold q'; destruct (_ || _); lia).
  replace (2 ^ 1024 <=? q' * 2 ^ sh)%Z with true; [reflexivity|].
  symmetry. apply Z.leb_le.
  apply Z.le_trans with (2 ^ 52 * 2 ^ sh)%Z.
  - rewrite <- Z.pow_add_r by lia. apply Z.pow_le_mono_r; lia.
  - apply Z.mul_le_mono_nonneg_r; [apply Z.pow_nonneg; lia | lia].
Qed.

(** The weight that [_weight] reads off an edge record. *)
Lemma weight_read (items : list (str * json)) :
  _weight (JObj items) =
  Ok (match lookup (py "weight") items with
      | None => Fin 0
      | Some (JFloat f) => f
      | Some (JInt z) => match float_of_int z with Some f => f | None => Fin 0 end
      | Some (JBool b) => Fin (if b then 1 else 0)
      | Some (JStr s) => match float_of_str s with Some f => f | None => Fin 0 end
      | Some JNull | Some (JArr _) | Some (JObj _) => Fin 0
      end).
Proof.
  rewrite weight_of_dict. unfold dict_get.
  destruct (lookup (py "weight") items) as [v|]; [|reflexivity].
  destruct v as [|b|z|f|s|l|l]; simpl; try reflexivity.
  - now destruct (float_of_int z).
  - now destruct (float_of_str s).
Qed.

(** C8, as amended. [keep_edge] keeps an edge exactly when the label of its
    [rel] object is a string of the allowed set and the weight of the edge,
    as [float] reads it, is at least [min_weight]. That reading never raises
    on an edge record. It is 0.0 when the record has no weight and when
    [float] raises on the one it has, as it does on [None], on a list, on an
    object, on a string that is no number and on an integer from 2^1024 on.
    A float is its own reading and an integer below 2^53 is read exactly;
    [True] and [False] are read as 1.0 and 0.0, and a string that [float]
    parses as the number it spells. So, at the threshold 1.0 and the default
    relations, an edge of weight 5.0, 3 or [True] is kept, one of weight 0.5
    or [None] or without a weight is dropped, as is one of the relation
    [Antonym]; an edge without a weight is kept at the threshold 0.0. *)
Theorem keep_edge_iff (rels : list str) (min_weight : pyfloat) (e : json) :
  let read := fun items : list (str * json) =>
    match lookup (py "weight") items with
    | None => Fin 0
    | Some (JFloat f) => f
    | Some (JInt z) => match float_of_int z with Some f => f | None => Fin 0 end
    | Some (JBool b) => Fin (if b then 1 else 0)
    | Some (JStr s) => match float_of_str s with Some f => f | None => Fin 0 end
    | Some JNull | Some (JArr _) | Some (JObj _) => Fin 0
    end in
  (keep_edge rels min_weight e = Ok true <->
   exists items r label,
     e = JObj items
     /\ dict_get items (py "rel") (JObj []) = JObj r
     /\ dict_get r (py "label") JNull = JStr label
     /\ In label rels
     /\ fge (read items) min_weight = true)
  /\ (forall items, _weight (JObj items) = Ok (read items))
  /\ (forall z, (Z.abs z < 2 ^ 53)%Z -> float_of_int z = Some (Fin (inject_Z z)))
  /\ (forall z, (2 ^ 1024 <= Z.abs z)%Z -> float_of_int z = None)
  /\ (forall a b, fge (Fin a) (Fin b) = true <-> (b <= a)%Q)
  /\ keep_edge DEFAULT_RELATIONS (Fin 1) (edge "dog" "IsA" "animal" (JFloat (Fin 5)))
     = Ok true
  /\ keep_edge DEFAULT_RELATIONS (Fin 1) (edge "dog" "IsA" "animal" (JInt 3))
     = Ok true
  /\ keep_edge DEFAULT_RELATIONS (Fin 1) (edge "dog" "IsA" "animal" (JBool true))
     = Ok true
  /\ keep_edge DEFAULT_RELATIONS (Fin 1)
       (edge "dog" "IsA" "animal" (JFloat (Fin (1 # 2))))
     = Ok false
  /\ keep_edge DEFAULT_RELATIONS (Fin 1) (edge "dog" "IsA" "animal" JNull)
     = Ok false
  /\ keep_edge DEFAULT_RELATIONS (Fin 1)
       (JObj [ (py "start", labelled "dog"); (py "rel", labelled "IsA");
               (py "end", labelled "animal") ])
     = Ok false
  /\ keep_edge DEFAULT_RELATIONS (Fin 0)
       (JObj [ (py "start", labelled "dog"); (py "rel", labelled "IsA");
               (py "end", labelled "animal") ])
     = Ok true
  /\ keep_edge DEFAULT_RELATIONS (Fin 1)
       (edge "hot" "Antonym" "cold" (JFloat (Fin 5)))
     = Ok false.
Proof.
  intro read.
  split; [|split; [|split; [|split; [|split]]]].
  - rewrite keep_edge_true. split.
    + intros (items & r & label & w & -> & R & L & M & W & G).
      rewrite weight_read in W. injection W as <-.
      exists items, r, label. auto.
    + intros (items & r & label & -> & R & L & M & G).
      exists items, r, label, (read items).
      split; [reflexivity|]. split; [exact R|]. split; [exact L|].
      split; [exact M|]. split; [apply weight_read | exact G].
  - apply weight_read.
  - apply float_of_int_exact.
  - apply float_of_int_overflow.
  - apply Qle_of_fge.
  - repeat split; vm_compute; reflexivity.
Qed.

(** An edge without a [rel] is dropped by the filter, and a kept edge with a
    label that does not resolve leaves the dictionary as it is. *)
Lemma keep_edge_no_rel (rels : list str) (min_weight : pyfloat)
    (items : list (str * json)) :
  lookup (py "rel") items = None ->
  keep_edge rels min_weight (JObj items) = Ok false.
Proof. intro H. unfold keep_edge. simpl. unfold dict_get. now rewrite H. Qed.

(** A [rel] that is there and is no object makes [keep_edge] raise. *)
Lemma keep_edge_rel_not_object (rels : list str) (min_weight : pyfloat)
    (items : list (str * json)) (v : json) :
  lookup (py "rel") items = Some v -> (forall r, v <> JObj r) ->
  keep_edge rels min_weight (JObj items) = Raise AttributeError.
Proof.
  intros H N. unfold keep_edge. simpl. unfold dict_get. rewrite H.
  destruct v; try reflexivity. now contradiction (N items0).
Qed.

(** C2, where the code departs from it. The answer for [dog] holds one edge
    whose [rel] is the string ["IsA"] and no object: [keep_edge] raises
    [AttributeError] on it, and so does the top-level function, which
    neither drops the edge nor returns. *)
Theorem non_object_rel_raises :
  let e := JObj [ (py "start", labelled "dog"); (py "rel", JStr (py "IsA"));
                  (py "end", labelled "park"); (py "weight", JFloat w3_2) ] in
  keep_edge DEFAULT_RELATIONS (Fin 1) e = Raise AttributeError
  /\ get_conceptnet_facts_for_image (service_for "dog" [e]) [py "dog"] None
       25 25 (Fin 1) 40
     = Raise AttributeError.
Proof. split; vm_compute; reflexivity. Qed.

(** ** The dictionary *)

Lemma key_eq_dec (a b : key) : {a = b} + {a <> b}.
Proof.
  destruct (key_eqb a b) eqn:E.
  - left. now apply key_eqb_eq.
  - right. now apply key_eqb_neq.
Qed.

Lemma best_get_absent (best : facts) (k : key) (d : pyfloat) :
  ~ In k (map fst best) -> best_get best k d = d.
Proof.
  induction best as [|[k' w'] rest IH]; simpl; intro H; [reflexivity|].
  destruct (key_eqb k k') eqn:E.
  - apply key_eqb_eq in E. subst. contradiction H. now left.
  - apply IH. intro Hin. apply H. now right.
Qed.

Lemma best_get_present (best : facts) (k : key) (w d : pyfloat) :
  NoDup (map fst best) -> In (k, w) best -> best_get best k d = w.
Proof.
  induction best as [|[k' w'] rest IH]; simpl; intros N H; [contradiction|].
  inversion N as [|? ? Hk N']; subst.
  destruct H as [H | H].
  - injection H as -> ->. now rewrite key_eqb_refl.
  - destruct (key_eqb k k') eqn:E.
    + apply key_eqb_eq in E. subst. contradiction Hk.
      change k' with (fst (k', w)). now apply in_map.
    + now apply IH.
Qed.

Lemma best_set_keys (best : facts) (k : key) (w : pyfloat) :
  map fst (best_set best k w) =
  if in_dec key_eq_dec k (map fst best) then map fst best else map fst best ++ [k].
Proof.
  induction best as [|[k' w'] rest IH]; simpl; [reflexivity|].
  destruct (key_eqb k k') eqn:E.
  - apply key_eqb_eq in E. subst. simpl.
    destruct (key_eq_dec k' k'); [reflexivity | contradiction].
  - apply key_eqb_neq in E. simpl. rewrite IH.
    destruct (key_eq_dec k' k); [now subst|].
    now destruct (in_dec key_eq_dec k (map fst rest)).
Qed.

Lemma best_set_nodup (best : facts) (k : key) (w : pyfloat) :
  NoDup (map fst best) -> NoDup (map fst (best_set best k w)).
Proof.
  intro N. rewrite best_set_keys.
  destruct (in_dec key_eq_dec k (map fst best)) as [Hin | Hout]; [exact N|].
  apply NoDup_app; [exact N | repeat constructor; intros [] |].
  intros x Hx [<- | []]. contradiction.
Qed.

Lemma best_set_has_key (best : facts) (k : key) (w : pyfloat) (k' : key) :
  In k' (map fst (best_set best k w)) <-> k' = k \/ In k' (map fst best).
Proof.
  rewrite best_set_keys.
  destruct (in_dec key_eq_dec k (map fst best)) as [Hin | Hout].
  - split; [now right | intros [-> | H]; assumption].
  - rewrite in_app_iff. simpl. split.
    + intros [H | [-> | []]]; [now right | now left].
    + intros [-> | H]; [right; now left | now left].
Qed.

(** The items after [best[k] = w]: [k] with [w], and the other keys with
    the weights they had. *)
Lemma best_set_items (best : facts) (k : key) (w : pyfloat) (k' : key) (w' : pyfloat) :
  NoDup (map fst best) ->
  In (k', w') (best_set best k w) <->
  (k' = k /\ w' = w) \/ (k' <> k /\ In (k', w') best).
Proof.
  induction best as [|[k0 w0] rest IH]; simpl; intro N.
  - split.
    + intros [H | []]. injection H as <- <-. now left.
    + intros [[-> ->] | [_ []]]. now left.
  - inversion N as [|? ? Hk N']; subst.
    destruct (key_eqb k k0) eqn:E.
    + apply key_eqb_eq in E. subst k0. simpl. split.
      * intros [H | H]; [injection H as <- <-; now left|].
        right. split; [|now right].
        intros ->. apply Hk. change k with (fst (k, w')). now apply in_map.
      * intros [[-> ->] | [Hne [H | H]]]; [now left | | now right].
        injection H as <- <-. now contradiction Hne.
    + apply key_eqb_neq in E. simpl. rewrite (IH N'). split.
      * intros [H | [H | [Hne H]]].
        -- injection H as <- <-. right. split; [congruence | now left].
        -- now left.
        -- right. split; [exact Hne | now right].
      * intros [H | [Hne [H | H]]].
        -- right. now left.
        -- now left.
        -- right. right. now split.
Qed.

(** ** One edge *)

Lemma dict_get_default (items : list (str * json)) (k : str) (d d' v : json) :
  dict_get items k d = v -> v <> d -> dict_get items k d' = v.
Proof. unfold dict_get. destruct (lookup k items); intros; congruence. Qed.

(** What [add_edge_fact] does with an edge that [keep_edge] has kept. *)
Lemma add_edge_fact_kept (rels : list str) (min_weight : pyfloat) (e : json)
    (best : facts) :
  kept rels min_weight e ->
  add_edge_fact e best =
  Ok (match edge_fact e with
      | Some (k, w) =>
          if fgt w (best_get best k (Fin (-1))) then best_set best k w else best
      | None => best
      end).
Proof.
  intro K. apply keep_edge_true in K.
  destruct K as (items & r & label & w & -> & R & L & M & W & G).
  apply dict_get_default with (d' := JStr []) in L; [|discriminate].
  unfold add_edge_fact, edge_fact, get, bind. rewrite R, L, W.
  change (truthy (JStr label)) with (negb (str_eqb label [])).
  destruct (negb (str_eqb (_as_label (dict_get items (py "start") (JObj []))) [])
            && negb (str_eqb label [])
            && negb (str_eqb (_as_label (dict_get items (py "end") (JObj []))) []));
    simpl; [|reflexivity].
  now destruct (fgt w (best_get best _ (Fin (-1)))).
Qed.

Lemma add_edge_fact_unresolved (rels : list str) (min_weight : pyfloat) (e : json)
    (best : facts) :
  kept rels min_weight e -> edge_fact e = None -> add_edge_fact e best = Ok best.
Proof.
  intros K F. now rewrite (add_edge_fact_kept rels min_weight e best K), F.
Qed.

Lemma kept_fact_ge (rels : list str) (min_weight : pyfloat) (e : json)
    (k : key) (w : pyfloat) :
  kept rels min_weight e -> edge_fact e = Some (k, w) -> fge w min_weight = true.
Proof.
  intros K F. apply keep_edge_true in K.
  destruct K as (items & r & label & w' & -> & R & L & M & W & G).
  apply dict_get_default with (d' := JStr []) in L; [|discriminate].
  unfold edge_fact in F. rewrite R, L, W in F.
  destruct (_ && _) in F; [|discriminate].
  now injection F as _ <-.
Qed.

Lemma kept_fact_ordered (rels : list str) (min_weight : pyfloat) (e : json)
    (k : key) (w : pyfloat) :
  kept rels min_weight e -> edge_fact e = Some (k, w) -> ordered w.
Proof.
  intros K F. now destruct (fge_ordered _ _ (kept_fact_ge _ _ _ _ _ K F)).
Qed.

Lemma seen_app (rels : list str) (min_weight : pyfloat) (a b : list json)
    (k : key) (w : pyfloat) :
  seen_with rels min_weight (a ++ b) k w <->
  seen_with rels min_weight a k w \/ seen_with rels min_weight b k w.
Proof.
  unfold seen_with. split.
  - intros (e & Hin & H). apply in_app_or in Hin as [Hin | Hin];
      [left | right]; now exists e.
  - intros [(e & Hin & H) | (e & Hin & H)]; exists e; split; try exact H;
      apply in_or_app; [now left | now right].
Qed.

Lemma seen_one (rels : list str) (min_weight : pyfloat) (e : json)
    (k : key) (w : pyfloat) :
  seen_with rels min_weight [e] k w <->
  kept rels min_weight e /\ edge_fact e = Some (k, w).
Proof.
  unfold seen_with. split.
  - intros (e' & [<- | []] & H). exact H.
  - intro H. exists e. split; [now left | exact H].
Qed.

Lemma seen_ordered (rels : list str) (min_weight : pyfloat) (edges : list json)
    (k : key) (w : pyfloat) :
  seen_with rels min_weight edges k w -> ordered w.
Proof. intros (e & _ & K & F). eapply kept_fact_ordered; eauto. Qed.

(** ** The loop over the edges *)

Lemma holds_best_nil (rels : list str) (min_weight : pyfloat) :
  holds_best rels min_weight [] [].
Proof.
  split; [constructor|]. split.
  - intros k w [].
  - intros k w (e & [] & _).
Qed.

(** An edge that is not kept, or that has no fact, leaves the dictionary. *)
Lemma holds_best_skip (rels : list str) (min_weight : pyfloat)
    (done : list json) (e : json) (best : facts) :
  holds_best rels min_weight done best ->
  ~ kept rels min_weight e \/ edge_fact e = None ->
  holds_best rels min_weight (done ++ [e]) best.
Proof.
  intros (N & Hmax & Hkey) Hskip.
  assert (A : forall k w, seen_with rels min_weight (done ++ [e]) k w <->
                          seen_with rels min_weight done k w).
  { intros k w. rewrite seen_app, seen_one. split; [|now left].
    intros [H | [K F]]; [exact H|].
    destruct Hskip as [NK | NF]; [contradiction | congruence]. }
  split; [exact N|]. split.
  - intros k w Hin. destruct (Hmax k w Hin) as [S M]. split.
    + now apply A.
    + intros w' S'. apply M. now apply A.
  - intros k w S. apply Hkey. now apply A.
Qed.

(** A kept edge with a fact goes through [best.get] and [best[key] = w]. *)
Lemma holds_best_step (rels : list str) (min_weight : pyfloat)
    (done : list json) (e : json) (k0 : key) (w0 : pyfloat) (best : facts) :
  holds_best rels min_weight done best ->
  kept rels min_weight e -> edge_fact e = Some (k0, w0) ->
  holds_best rels min_weight (done ++ [e])
    (if fgt w0 (best_get best k0 (Fin (-1))) then best_set best k0 w0 else best).
Proof.
  intros (N & Hmax & Hkey) K F.
  assert (O0 : ordered w0) by (eapply kept_fact_ordered; eauto).
  assert (O1 : ordered (Fin (-1))) by discriminate.
  assert (A : forall k w, seen_with rels min_weight (done ++ [e]) k w <->
                          seen_with rels min_weight done k w \/ (k = k0 /\ w = w0)).
  { intros k w. rewrite seen_app, seen_one. split.
    - intros [H | [_ F']]; [now left|]. right. rewrite F in F'.
      injection F' as <- <-. now split.
    - intros [H | [-> ->]]; [now left | right; now split]. }
  destruct (fgt w0 (best_get best k0 (Fin (-1)))) eqn:G.
  - split; [now apply best_set_nodup|]. split.
    + intros k w Hin. apply (best_set_items best k0 w0 k w N) in Hin.
      destruct Hin as [[-> ->] | [Hne Hin]].
      * split; [apply A; right; now split|].
        intros w' S'. apply A in S'. destruct S' as [S' | [_ ->]];
          [|now apply fge_refl].
        destruct (in_dec key_eq_dec k0 (map fst best)) as [Hk | Hk].
        -- apply in_map_iff in Hk. destruct Hk as ([k1 w1] & E & Hk).
           simpl in E. subst k1.
           rewrite (best_get_present best k0 w1 _ N Hk) in G.
           eapply fgt_fge_trans; [exact G|]. now apply (Hmax k0 w1 Hk).
        -- rewrite (best_get_absent best k0 _ Hk) in G.
           eapply fgt_fge_trans; [exact G|].
           apply fge_total; [eapply seen_ordered; eauto | exact O1 |].
           destruct (fgt w' (Fin (-1))) eqn:G'; [|reflexivity].
           contradiction Hk. eapply Hkey; eauto.
      * destruct (Hmax k w Hin) as [S M]. split; [apply A; now left|].
        intros w' S'. apply A in S'. destruct S' as [S' | [-> _]];
          [now apply M | now contradiction Hne].
    + intros k w S G'. apply best_set_has_key. apply A in S.
      destruct S as [S | [-> _]]; [right; eapply Hkey; eauto | now left].
  - split; [exact N|]. split.
    + intros k w Hin. destruct (Hmax k w Hin) as [S M]. split; [apply A; now left|].
      intros w' S'. apply A in S'. destruct S' as [S' | [-> ->]]; [now apply M|].
      rewrite (best_get_present best k0 w _ N Hin) in G.
      apply fge_total; [exact O0 | eapply seen_ordered; eauto | exact G].
    + intros k w S G'. apply A in S. destruct S as [S | [-> ->]];
        [eapply Hkey; eauto|].
      destruct (in_dec key_eq_dec k0 (map fst best)) as [Hk | Hk]; [exact Hk|].
      rewrite (best_get_absent best k0 _ Hk) in G. congruence.
Qed.

Lemma for_edges_holds (rels : list str) (min_weight : pyfloat) (edges : list json) :
  forall (done : list json) (best best' : facts),
    holds_best rels min_weight done best ->
    for_edges rels min_weight edges best = Ok best' ->
    holds_best rels min_weight (done ++ edges) best'.
Proof.
  induction edges as [|e rest IH]; intros done best best' H E; simpl in E.
  - injection E as <-. now rewrite app_nil_r.
  - replace (done ++ e :: rest) with ((done ++ [e]) ++ rest)
      by (now rewrite <- app_assoc).
    destruct (keep_edge rels min_weight e) as [[|]|x] eqn:K; simpl in E;
      [| |discriminate].
    + rewrite (add_edge_fact_kept rels min_weight e best K) in E. simpl in E.
      apply IH with (2 := E).
      destruct (edge_fact e) as [[k0 w0]|] eqn:F.
      * now apply holds_best_step.
      * apply holds_best_skip; [exact H | now right].
    + apply IH with (2 := E). apply holds_best_skip; [exact H | left].
      unfold kept. congruence.
Qed.

Lemma for_edges_app (rels : list str) (min_weight : pyfloat) (a b : list json) :
  forall best,
    for_edges rels min_weight (a ++ b) best =
    (best' <- for_edges rels min_weight a best ;; for_edges rels min_weight b best').
Proof.
  induction a as [|e rest IH]; intro best; simpl; [reflexivity|].
  destruct (keep_edge rels min_weight e) as [keep|x]; simpl; [|reflexivity].
  destruct (if keep then add_edge_fact e best else Ok best) as [best1|x]; simpl;
    [apply IH | reflexivity].
Qed.

(** ** The two phases *)

Lemma edges_at_answer (remote : nat -> str -> reply) (n : nat) (url : str)
    (response : option json) (data : json) (edges : list json) :
  requests_get remote n url = Ok response -> json_ response = Ok data ->
  edges_of data = Ok edges -> edges_at remote n url = edges.
Proof.
  unfold requests_get, json_, edges_at. intros R J E.
  destruct (remote n url) as [|b]; [discriminate|]. injection R as ->.
  destruct response as [v|]; [|discriminate]. injection J as ->.
  now rewrite E.
Qed.

Lemma per_object_edges_fetched (remote : nat -> str -> reply) (rels : list str)
    (per_object_limit : Z) (min_weight : pyfloat) (objs : list str) :
  forall (n : nat) (best : facts) (st : nat * facts),
    per_object_edges remote rels per_object_limit min_weight objs n best = Ok st ->
    fst st = (n + 2 * List.length objs)%nat
    /\ for_edges rels min_weight (fetched_per_object remote per_object_limit objs n) best
       = Ok (snd st).
Proof.
  induction objs as [|obj rest IH]; intros n best st H; simpl in H.
  - injection H as <-. simpl. split; [lia | reflexivity].
  - destruct (requests_get remote n _) as [printed|x] eqn:P; [|discriminate].
    simpl in H.
    destruct (requests_get remote (S n) _) as [response|x] eqn:R; [|discriminate].
    simpl in H. destruct (json_ response) as [data|x] eqn:J; [|discriminate].
    simpl in H. destruct (edges_of data) as [edges|x] eqn:E; [|discriminate].
    simpl in H.
    destruct (for_edges rels min_weight edges best) as [best1|x] eqn:F;
      [|discriminate].
    simpl in H. apply IH in H. destruct H as [Hn Hf]. split.
    + rewrite Hn. simpl. lia.
    + simpl. rewrite for_edges_app, (edges_at_answer _ _ _ _ _ _ R J E), F.
      exact Hf.
Qed.

Lemma pair_edges_fetched (remote : nat -> str -> reply) (rels : list str)
    (pair_limit : Z) (min_weight : pyfloat) (pairs : list (str * str)) :
  forall (n : nat) (best : facts) (st : nat * facts),
    pair_edges remote rels pair_limit min_weight pairs n best = Ok st ->
    for_edges rels min_weight (fetched_pairs remote pair_limit pairs n) best
    = Ok (snd st).
Proof.
  induction pairs as [|[a b] rest IH]; intros n best st H; simpl in H.
  - injection H as <-. reflexivity.
  - destruct (requests_get remote n _) as [response|x] eqn:R; [|discriminate].
    simpl in H. destruct (json_ response) as [data|x] eqn:J; [|discriminate].
    simpl in H. destruct (edges_of data) as [edges|x] eqn:E; [|discriminate].
    simpl in H.
    destruct (for_edges rels min_weight edges best) as [best1|x] eqn:F;
      [|discriminate].
    simpl in H. apply IH in H.
    simpl. now rewrite for_edges_app, (edges_at_answer _ _ _ _ _ _ R J E), F.
Qed.

(** A run that comes to its end has gone through the fetched edges one by
    one, those of the per-object phase first. *)
Lemma collect_fetched (remote : nat -> str -> reply) (rels : list str)
    (per_object_limit pair_limit : Z) (min_weight : pyfloat) (objs : list str)
    (best : facts) :
  collect remote rels per_object_limit pair_limit min_weight objs = Ok best ->
  for_edges rels min_weight (fetched remote per_object_limit pair_limit objs) []
  = Ok best.
Proof.
  unfold collect, fetched. intro H.
  destruct (per_object_edges _ _ _ _ objs 0%nat []) as [st1|x] eqn:P1;
    [|discriminate].
  simpl in H.
  destruct (pair_edges _ _ _ _ _ (fst st1) (snd st1)) as [st2|x] eqn:P2;
    [|discriminate].
  simpl in H. injection H as <-.
  apply per_object_edges_fetched in P1. destruct P1 as [Hn Hf].
  apply pair_edges_fetched in P2. rewrite Hn in P2. simpl in P2.
  now rewrite for_edges_app, Hf.
Qed.

Lemma collect_holds (remote : nat -> str -> reply) (rels : list str)
    (per_object_limit pair_limit : Z) (min_weight : pyfloat) (objs : list str)
    (best : facts) :
  collect remote rels per_object_limit pair_limit min_weight objs = Ok best ->
  holds_best rels min_weight (fetched remote per_object_limit pair_limit objs) best.
Proof.
  intro H. apply collect_fetched in H.
  apply (for_edges_holds rels min_weight _ [] [] best (holds_best_nil _ _) H).
Qed.

(** ** Ranking *)

Lemma insert_desc_perm (x : key * pyfloat) (l : facts) :
  Permutation (x :: l) (insert_desc x l).
Proof.
  induction l as [|y t IH]; simpl; [reflexivity|].
  destruct (fgt (snd y) (snd x)); [|reflexivity].
  rewrite perm_swap. now constructor.
Qed.

Lemma sorted_desc_perm (l : facts) : Permutation l (sorted_desc l).
Proof.
  induction l as [|x t IH]; simpl; [constructor|].
  rewrite <- insert_desc_perm. now constructor.
Qed.

Lemma insert_desc_sorted (x : key * pyfloat) (l : facts) :
  ordered (snd x) -> Forall (fun y => ordered (snd y)) l ->
  StronglySorted weight_ge l -> StronglySorted weight_ge (insert_desc x l).
Proof.
  intros Ox Ol S. induction S as [|y t S IH Hy]; simpl.
  - constructor; constructor.
  - inversion Ol as [|? ? Oy Ot]; subst.
    destruct (fgt (snd y) (snd x)) eqn:G.
    + constructor; [now apply IH|].
      apply Forall_forall. intros z Hz.
      apply (Permutation_in _ (Permutation_sym (insert_desc_perm x t))) in Hz.
      destruct Hz as [<- | Hz]; [now apply fgt_fge|].
      now apply (proj1 (Forall_forall _ _) Hy).
    + assert (Gxy : weight_ge x y) by (now apply fge_total).
      constructor; [now constructor|]. constructor; [exact Gxy|].
      apply Forall_forall. intros z Hz. unfold weight_ge in *.
      eapply fge_trans; [exact Gxy|]. now apply (proj1 (Forall_forall _ _) Hy).
Qed.

(** The sorted items go by weight, greatest first, when no weight is NaN. *)
Lemma sorted_desc_sorted (l : facts) :
  Forall (fun y => ordered (snd y)) l -> StronglySorted weight_ge (sorted_desc l).
Proof.
  induction 1 as [|x t Ox Ot IH]; simpl; [constructor|].
  apply insert_desc_sorted; [exact Ox | | exact IH].
  apply Forall_forall. intros z Hz.
  apply (Permutation_in _ (Permutation_sym (sorted_desc_perm t))) in Hz.
  now apply (proj1 (Forall_forall _ _) Ot).
Qed.

Lemma firstn_sorted {A : Type} (R : A -> A -> Prop) (n : nat) (l : list A) :
  StronglySorted R l -> StronglySorted R (firstn n l).
Proof.
  intro S. revert n. induction S as [|x t S IH Hx]; intros [|n]; simpl;
    try constructor.
  - apply IH.
  - apply Forall_forall. intros z Hz. apply (proj1 (Forall_forall _ _) Hx).
    rewrite <- (firstn_skipn n t). apply in_or_app. now left.
Qed.

Lemma slice_to_firstn {A : Type} (k : Z) (l : list A) :
  exists n, slice_to k l = firstn n l.
Proof. unfold slice_to. destruct (k <? 0)%Z; eauto. Qed.

Lemma slice_to_in {A : Type} (k : Z) (l : list A) (x : A) :
  In x (slice_to k l) -> In x l.
Proof.
  destruct (slice_to_firstn k l) as [n ->]. intro H.
  rewrite <- (firstn_skipn n l). apply in_or_app. now left.
Qed.

Lemma slice_to_nodup (k : Z) (l : facts) :
  NoDup (map fst l) -> NoDup (map fst (slice_to k l)).
Proof.
  destruct (slice_to_firstn k l) as [n ->]. intro H.
  rewrite <- (firstn_skipn n l), map_app in H.
  now apply NoDup_app_remove_r in H.
Qed.

Lemma slice_to_length {A : Type} (k : Z) (l : list A) :
  (0 <= k)%Z -> (Z.of_nat (List.length (slice_to k l)) <= k)%Z.
Proof.
  intro H. unfold slice_to. destruct (k <? 0)%Z eqn:E; [lia|].
  pose proof (firstn_le_length (Z.to_nat k) l). lia.
Qed.

Lemma sentences_length (ranked : facts) (sents : list str) :
  sentences ranked = Ok sents -> List.length sents = List.length ranked.
Proof.
  revert sents. induction ranked as [|[[[s r] o] w] rest IH]; intros sents H;
    simpl in H.
  - now injection H as <-.
  - destruct (_edge_to_sentence s r o) as [sent|x]; [|discriminate]. simpl in H.
    destruct (sentences rest) as [sents'|x]; [|discriminate]. simpl in H.
    injection H as <-. simpl. now rewrite (IH sents').
Qed.

(** ** The top-level function *)

Lemma sentences_each (ranked : facts) (sents : list str) :
  sentences ranked = Ok sents ->
  Forall2 (fun fact sent =>
             let '((s, r, o), _) := fact in _edge_to_sentence s r o = Ok sent)
          ranked sents.
Proof.
  revert sents. induction ranked as [|[[[s r] o] w] rest IH]; intros sents H;
    simpl in H.
  - injection H as <-. constructor.
  - destruct (_edge_to_sentence s r o) as [sent|x] eqn:E; [|discriminate].
    simpl in H. destruct (sentences rest) as [sents'|x]; [|discriminate].
    simpl in H. injection H as <-. constructor; [exact E | now apply IH].
Qed.

(** X22. When the run comes to its ranked facts: no two of them
    have the same key; the weight of each is the weight of a kept edge of
    its key among the edges fetched in the two phases, and is at least the
    weight of every such edge; and the dictionary that was ranked has a key
    for every kept edge whose labels resolve and whose weight is greater
    than -1.0, which is every such edge when [min_weight] is greater than
    -1.0. Two edges (dog, IsA, animal) of weights 2.0 and 5.0 leave the one
    fact of that key, with the weight 5.0. *)
Theorem ranked_facts_are_best (remote : nat -> str -> reply) (objects : list str)
    (relations : option (list str)) (per_object_limit pair_limit : Z)
    (min_weight : pyfloat) (max_facts : Z) (ranked : facts) :
  ranked_facts remote objects relations per_object_limit pair_limit min_weight
    max_facts = Ok ranked ->
  let rels := rels_of relations in
  let objs := dedup_objects objects [] in
  let seen := seen_with rels min_weight
                (fetched remote per_object_limit pair_limit objs) in
  NoDup (map fst ranked)
  /\ (forall k w, In (k, w) ranked ->
        seen k w /\ forall w', seen k w' -> fge w w' = true)
  /\ (exists best,
        collect remote rels per_object_limit pair_limit min_weight objs = Ok best
        /\ ranked = slice_to max_facts (sorted_desc best)
        /\ (forall k w, seen k w -> fgt w (Fin (-1)) = true -> In k (map fst best))
        /\ (fgt min_weight (Fin (-1)) = true ->
            forall k w, seen k w -> In k (map fst best)))
  /\ ranked_facts
       (service_for "dog" [ edge "dog" "IsA" "animal" (JFloat (Fin 2));
                            edge "dog" "IsA" "animal" (JFloat (Fin 5)) ])
       [py "dog"] None 25 25 (Fin 1) 40
     = Ok [((py "dog", py "IsA", py "animal"), Fin 5)].
Proof.
  intros H rels objs seen. unfold ranked_facts in H. fold rels objs in H.
  destruct (collect remote rels per_object_limit pair_limit min_weight objs)
    as [best|x] eqn:C; [|discriminate].
  simpl in H. injection H as <-.
  destruct (collect_holds _ _ _ _ _ _ _ C) as (N & Hmax & Hkey).
  fold seen in Hmax, Hkey.
  split; [|split; [|split]].
  - apply slice_to_nodup.
    apply (Permutation_NoDup (Permutation_map fst (sorted_desc_perm best)) N).
  - intros k w Hin. apply Hmax.
    apply (Permutation_in _ (Permutation_sym (sorted_desc_perm best))).
    now apply slice_to_in in Hin.
  - exists best. split; [reflexivity|]. split; [reflexivity|].
    split; [exact Hkey|].
    intros G k w S. apply (Hkey k w S).
    destruct S as (e & _ & K & F).
    eapply fge_fgt_trans; [|exact G]. eapply kept_fact_ge; eauto.
  - vm_compute. reflexivity.
Qed.

(** C4, as amended. Whenever [max_facts] is not negative, the function
    returns at most [max_facts] sentences. *)
Theorem at_most_max_facts (remote : nat -> str -> reply) (objects : list str)
    (relations : option (list str)) (per_object_limit pair_limit : Z)
    (min_weight : pyfloat) (max_facts : Z) (sents : list str) :
  (0 <= max_facts)%Z ->
  get_conceptnet_facts_for_image remote objects relations per_object_limit
    pair_limit min_weight max_facts = Ok sents ->
  (Z.of_nat (List.length sents) <= max_facts)%Z.
Proof.
  intros Hk H. unfold get_conceptnet_facts_for_image, ranked_facts in H.
  destruct (collect _ _ _ _ _ _) as [best|x]; [|discriminate]. simpl in H.
  rewrite (sentences_length _ _ H). now apply slice_to_length.
Qed.

(** C5. The sentences that the function returns are those of its ranked
    facts, one for one and in their order, and the weights of these facts
    never grow from one to the next: each is at least every later one. *)
Theorem sentences_by_weight (remote : nat -> str -> reply) (objects : list str)
    (relations : option (list str)) (per_object_limit pair_limit : Z)
    (min_weight : pyfloat) (max_facts : Z) (sents : list str) :
  get_conceptnet_facts_for_image remote objects relations per_object_limit
    pair_limit min_weight max_facts = Ok sents ->
  exists ranked,
    ranked_facts remote objects relations per_object_limit pair_limit min_weight
      max_facts = Ok ranked
    /\ Forall2 (fun fact sent =>
                  let '((s, r, o), _) := fact in _edge_to_sentence s r o = Ok sent)
               ranked sents
    /\ StronglySorted weight_ge ranked.
Proof.
  intro H. unfold get_conceptnet_facts_for_image in H.
  destruct (ranked_facts _ _ _ _ _ _ _) as [ranked|x] eqn:R; [|discriminate].
  simpl in H. exists ranked. split; [reflexivity|].
  split; [now apply sentences_each|].
  unfold ranked_facts in R.
  destruct (collect _ _ _ _ _ _) as [best|x] eqn:C; [|discriminate].
  simpl in R. injection R as <-.
  destruct (collect_holds _ _ _ _ _ _ _ C) as (_ & Hmax & _).
  destruct (slice_to_firstn max_facts (sorted_desc best)) as [n ->].
  apply firstn_sorted, sorted_desc_sorted.
  apply Forall_forall. intros [k w] Hin. simpl.
  destruct (Hmax k w Hin) as [S _]. eapply seen_ordered; eauto.
Qed.

(** C10. An empty set of relations is the same call as no set of relations:
    the nine default relations do the filtering, and so the edge
    (dog, AtLocation, park) of weight 3.2 is still rendered. *)
Theorem empty_relations_mean_default (remote : nat -> str -> reply)
    (objects : list str) (per_object_limit pair_limit : Z)
    (min_weight : pyfloat) (max_facts : Z) :
  rels_of (Some []) = DEFAULT_RELATIONS
  /\ ranked_facts remote objects (Some []) per_object_limit pair_limit
       min_weight max_facts
     = ranked_facts remote objects None per_object_limit pair_limit
         min_weight max_facts
  /\ get_conceptnet_facts_for_image remote objects (Some []) per_object_limit
       pair_limit min_weight max_facts
     = get_conceptnet_facts_for_image remote objects None per_object_limit
         pair_limit min_weight max_facts
  /\ get_conceptnet_facts_for_image
       (service_for "dog" [edge "dog" "AtLocation" "park" (JFloat w3_2)])
       [py "dog"; py "park"] (Some []) 25 25 (Fin 1) 40
     = Ok [py "A dog is often found in a park."].
Proof.
  split; [reflexivity|]. split; [reflexivity|]. split; [reflexivity|].
  vm_compute. reflexivity.
Qed.

(** * Further properties of the module *)

(** ** Characters *)

Ltac as_prop H :=
  repeat (rewrite orb_true_iff in H || rewrite andb_true_iff in H
          || rewrite N.leb_le in H || rewrite N.eqb_eq in H
          || rewrite negb_true_iff in H || rewrite N.eqb_neq in H).

Lemma isident_not_space (c : char) : isident c = true -> isspace c = false.
Proof.
  unfold isident, isspace, between. intro H.
  apply not_true_is_false. intro S. as_prop H. as_prop S. lia.
Qed.

Lemma isident_lower (c : char) :
  isident c = true -> (c <? 256) = true /\ lower_latin1 c = c.
Proof.
  unfold isident, lower_latin1, between. intro H. as_prop H.
  split; [apply N.ltb_lt; lia|].
  destruct (_ || _) eqn:E; [|reflexivity]. as_prop E. lia.
Qed.

Lemma lstrip_no_space (s : str) :
  Forall (fun c => isspace c = false) s -> lstrip s = s.
Proof. intros [|c t Hc _]; [reflexivity | now apply lstrip_fixed]. Qed.

Lemma strip_no_space (s : str) :
  Forall (fun c => isspace c = false) s -> strip s = s.
Proof.
  intro H. unfold strip, rstrip. rewrite (lstrip_no_space s H).
  rewrite lstrip_no_space; [apply rev_involutive|].
  apply Forall_forall. intros c Hc. apply (proj2 (in_rev _ _)) in Hc.
  now apply (proj1 (Forall_forall _ _) H).
Qed.

Lemma sub_spaces_no_space (rep : str) (b : bool) (s : str) :
  Forall (fun c => isspace c = false) s -> sub_spaces rep b s = s.
Proof.
  intro H. revert b. induction H as [|c t Hc _ IH]; intro b; simpl;
    [reflexivity|].
  now rewrite Hc, IH.
Qed.

Lemma filter_all {A : Type} (f : A -> bool) (l : list A) :
  Forall (fun x => f x = true) l -> filter f l = l.
Proof. induction 1 as [|x t Hx _ IH]; simpl; [reflexivity|]. now rewrite Hx, IH. Qed.

(** X1. Normalising an identifier changes nothing: [_norm] is idempotent, so
    a concept that is already an identifier is looked up as it is. *)
Theorem norm_idempotent (s : str) : _norm (_norm s) = _norm s.
Proof.
  assert (I : Forall (fun c => isident c = true) (_norm s)).
  { unfold _norm, re_sub_nonident. apply Forall_forall. intros c Hc.
    now apply filter_In in Hc. }
  assert (S : Forall (fun c => isspace c = false) (_norm s)).
  { apply Forall_forall. intros c Hc. apply isident_not_space.
    now apply (proj1 (Forall_forall _ _) I). }
  remember (_norm s) as t eqn:Et. unfold _norm.
  rewrite (strip_no_space t S).
  assert (L : lower t = t).
  { unfold lower.
    assert (F : latin1 t = true).
    { unfold latin1. apply forallb_forall. intros c Hc.
      now apply isident_lower, (proj1 (Forall_forall _ _) I). }
    rewrite F. clear -I. induction I as [|c u Hc _ IH]; simpl; [reflexivity|].
    rewrite IH. f_equal. now apply isident_lower. }
  rewrite L. unfold re_sub_spaces, re_sub_nonident.
  rewrite (sub_spaces_no_space _ _ t S). now apply filter_all.
Qed.

(** ** Labels *)

Lemma lstrip_suffix (s : str) : exists w, s = w ++ lstrip s.
Proof.
  induction s as [|c t [w IH]]; simpl; [now exists []|].
  destruct (isspace c).
  - exists (c :: w). simpl. now rewrite <- IH.
  - now exists [].
Qed.

Lemma rstrip_prefix (s : str) : exists w, s = rstrip s ++ w.
Proof.
  unfold rstrip. destruct (lstrip_suffix (rev s)) as [w E]. exists (rev w).
  rewrite <- rev_app_distr, <- E. now rewrite rev_involutive.
Qed.

Lemma strip_in (c : char) (s : str) : In c (strip s) -> In c s.
Proof.
  unfold strip. intro H.
  destruct (rstrip_prefix (lstrip s)) as [w1 E1].
  destruct (lstrip_suffix s) as [w2 E2].
  rewrite E2. apply in_or_app. right. rewrite E1. apply in_or_app. now left.
Qed.

Lemma last_field_no_sep (sep : char) (s : str) : ~ In sep (last_field sep s).
Proof.
  induction s as [|c t IH]; simpl; [tauto|].
  destruct (existsb (N.eqb sep) t) eqn:E; [exact IH|].
  assert (N : ~ In sep t).
  { intro H. apply not_true_iff_false in E. apply E.
    apply existsb_exists. exists sep. split; [exact H | apply N.eqb_refl]. }
  destruct (c =? sep) eqn:C; [exact N|].
  apply N.eqb_neq in C. intros [H | H]; [now apply C | now apply N].
Qed.

Lemma last_field_in (sep c : char) (s : str) : In c (last_field sep s) -> In c s.
Proof.
  induction s as [|d t IH]; simpl; [tauto|].
  destruct (existsb (N.eqb sep) t); [intro H; right; now apply IH|].
  destruct (d =? sep); [intro H; now right | tauto].
Qed.

Lemma replace_underscores_in (c : char) (s : str) :
  In c (replace_underscores s) -> c <> 95 /\ (c = 32 \/ In c s).
Proof.
  unfold replace_underscores. intro H. apply in_map_iff in H.
  destruct H as (d & E & Hd). destruct (d =? 95) eqn:D.
  - subst c. split; [discriminate | now left].
  - apply N.eqb_neq in D. subst c. split; [exact D | now right].
Qed.

Lemma as_label_trimmed (e : json) : strip (_as_label e) = _as_label e.
Proof.
  unfold _as_label. destruct e as [| | | | | |items]; try reflexivity.
  cbv zeta. destruct (truthy _); [apply strip_idem|].
  destruct (dict_get items (py "@id") JNull); try reflexivity.
  apply strip_idem.
Qed.

(** X2. The label that [_as_label] resolves is always trimmed. A value that
    is no object has the empty label. When the label is taken from ["@id"]
    (the [label] being absent or falsy), it holds neither a slash nor an
    underscore, and each of its characters is a space or a character of the
    identifier. *)
Theorem as_label_resolved (e : json) :
  strip (_as_label e) = _as_label e
  /\ ((forall items, e <> JObj items) -> _as_label e = [])
  /\ (forall items _id,
        e = JObj items ->
        truthy (dict_get items (py "label") JNull) = false ->
        dict_get items (py "@id") JNull = JStr _id ->
        ~ In 47 (_as_label e) /\ ~ In 95 (_as_label e)
        /\ forall c, In c (_as_label e) -> c = 32 \/ In c _id).
Proof.
  split; [|split].
  - apply as_label_trimmed.
  - intro H. destruct e; try reflexivity. now contradiction (H items).
  - intros items _id -> T I. unfold _as_label. cbv zeta. rewrite T, I.
    assert (P : forall c, In c (strip (replace_underscores (last_field 47 _id))) ->
                          c <> 95 /\ (c = 32 \/ In c (last_field 47 _id))).
    { intros c Hc. now apply replace_underscores_in, strip_in. }
    split; [|split].
    + intro H. destruct (P _ H) as [_ [E | Hin]]; [discriminate|].
      now apply last_field_no_sep in Hin.
    + intro H. now destruct (P _ H) as [N _].
    + intros c Hc. destruct (P _ Hc) as [_ [E | Hin]]; [now left|].
      right. now apply last_field_in in Hin.
Qed.

(** ** The objects *)

Lemma dedup_objects_spec (objects : list str) :
  forall seen : list str,
    let objs := dedup_objects objects seen in
    NoDup (map lower objs)
    /\ (forall o, In o objs -> ~ In (lower o) seen)
    /\ Forall (fun o => o <> [] /\ strip o = o) objs
    /\ (forall o, In o objs -> exists o', In o' objects /\ o = strip o')
    /\ (forall o', In o' objects -> strip o' <> [] ->
          In (lower (strip o')) seen \/ In (lower (strip o')) (map lower objs)).
Proof.
  induction objects as [|o rest IH]; intro seen; simpl.
  - split; [constructor|]. split; [tauto|]. split; [constructor|].
    split; tauto.
  - destruct (negb (str_eqb (strip o) [])
              && negb (existsb (str_eqb (lower (strip o))) seen)) eqn:C.
    + apply andb_true_iff in C. destruct C as [C1 C2].
      apply negb_true_iff in C1, C2. apply str_eqb_nil in C1.
      assert (C3 : ~ In (lower (strip o)) seen).
      { intro H. apply existsb_str_eqb in H. congruence. }
      destruct (IH (lower (strip o) :: seen)) as (N & D & T & F & A).
      simpl. split; [|split; [|split; [|split]]].
      * constructor; [|exact N]. intro H. apply in_map_iff in H.
        destruct H as (x & E & Hx). apply (D x Hx). left. now symmetry.
      * intros x [<- | Hx]; [exact C3|]. intro H. apply (D x Hx). now right.
      * constructor; [|exact T]. split; [exact C1 | apply strip_idem].
      * intros x [<- | Hx]; [exists o; split; [now left | reflexivity]|].
        destruct (F x Hx) as (o' & Ho' & E). exists o'. split; [now right | exact E].
      * intros o' [<- | Ho'] B; [right; now left|].
        destruct (A o' Ho' B) as [[E | H] | H];
          [right; left; exact E | now left | right; now right].
    + destruct (IH seen) as (N & D & T & F & A).
      split; [exact N|]. split; [exact D|]. split; [exact T|]. split.
      * intros x Hx. destruct (F x Hx) as (o' & Ho' & E).
        exists o'. split; [now right | exact E].
      * intros o' [<- | Ho'] B; [|now apply A]. left.
        apply andb_false_iff in C. destruct C as [C | C];
          apply negb_false_iff in C.
        -- apply str_eqb_eq in C. contradiction.
        -- now apply existsb_str_eqb.
Qed.

(** X3. The objects that are looked up: no two of them are the same when
    put in lower case, each is trimmed and not empty, each is an input
    object trimmed, and every input object that is not blank is among them
    up to case. *)
Theorem dedup_objects_distinct (objects : list str) :
  let objs := dedup_objects objects [] in
  NoDup (map lower objs)
  /\ Forall (fun o => o <> [] /\ strip o = o) objs
  /\ (forall o, In o objs -> exists o', In o' objects /\ o = strip o')
  /\ (forall o', In o' objects -> strip o' <> [] ->
        In (lower (strip o')) (map lower objs)).
Proof.
  destruct (dedup_objects_spec objects []) as (N & _ & T & F & A).
  split; [exact N|]. split; [exact T|]. split; [exact F|].
  intros o' Ho' B. destruct (A o' Ho' B) as [[] | H]. exact H.
Qed.

Lemma dedup_objects_blank (objects seen : list str) :
  Forall (fun o => strip o = []) objects -> dedup_objects objects seen = [].
Proof.
  induction 1 as [|o rest Ho _ IH]; simpl; [reflexivity|]. now rewrite Ho.
Qed.

Lemma slice_to_nil {A : Type} (k : Z) : slice_to k (@nil A) = [].
Proof. unfold slice_to. destruct (k <? 0)%Z; apply firstn_nil. Qed.

(** X4. When every object is blank (the list may be empty), the function
    returns the empty list without a request: the service is not asked, so
    it cannot make the call fail. *)
Theorem blank_objects_give_nothing (remote : nat -> str -> reply)
    (objects : list str) (relations : option (list str))
    (per_object_limit pair_limit : Z) (min_weight : pyfloat) (max_facts : Z) :
  Forall (fun o => strip o = []) objects ->
  get_conceptnet_facts_for_image remote objects relations per_object_limit
    pair_limit min_weight max_facts = Ok [].
Proof.
  intro H. unfold get_conceptnet_facts_for_image, ranked_facts.
  rewrite (dedup_objects_blank objects [] H). simpl. now rewrite slice_to_nil.
Qed.

(** X5. When some object is not blank and the first request gets no answer,
    the function raises [ConnectionError]. That first request is the one
    whose answer is only printed. *)
Theorem unreachable_service_raises (remote : nat -> str -> reply)
    (objects : list str) (relations : option (list str))
    (per_object_limit pair_limit : Z) (min_weight : pyfloat) (max_facts : Z) :
  (exists o, In o objects /\ strip o <> []) ->
  (forall url, remote 0%nat url = Unreachable) ->
  get_conceptnet_facts_for_image remote objects relations per_object_limit
    pair_limit min_weight max_facts = Raise ConnectionError.
Proof.
  intros (o & Ho & B) U.
  destruct (dedup_objects_spec objects []) as (_ & _ & _ & _ & A).
  destruct (A o Ho B) as [[] | H].
  unfold get_conceptnet_facts_for_image, ranked_facts, collect.
  destruct (dedup_objects objects []) as [|obj rest]; [contradiction|].
  simpl. unfold requests_get at 1. now rewrite U.
Qed.

(** ** Answers without edges *)

Lemma no_edges_per_object (remote : nat -> str -> reply) (rels : list str)
    (per_object_limit : Z) (min_weight : pyfloat) (best : facts) :
  (forall n url, exists items,
      remote n url = Body (Some (JObj items))
      /\ truthy (dict_get items (py "edges") JNull) = false) ->
  forall (objs : list str) (n : nat),
    per_object_edges remote rels per_object_limit min_weight objs n best
    = Ok ((n + 2 * List.length objs)%nat, best).
Proof.
  intros H objs. induction objs as [|obj rest IH]; intro n; simpl.
  - f_equal. f_equal. lia.
  - unfold requests_get.
    destruct (H n (printed_url per_object_limit (_to_en_uri obj)))
      as (items0 & -> & _).
    destruct (H (S n) (object_url per_object_limit (_to_en_uri obj)))
      as (items & -> & T).
    simpl. unfold edges_of. simpl. rewrite T. simpl. rewrite IH.
    f_equal. f_equal. lia.
Qed.

Lemma no_edges_pairs (remote : nat -> str -> reply) (rels : list str)
    (pair_limit : Z) (min_weight : pyfloat) (best : facts) :
  (forall n url, exists items,
      remote n url = Body (Some (JObj items))
      /\ truthy (dict_get items (py "edges") JNull) = false) ->
  forall (pairs : list (str * str)) (n : nat),
    pair_edges remote rels pair_limit min_weight pairs n best
    = Ok ((n + List.length pairs)%nat, best).
Proof.
  intros H pairs. induction pairs as [|[a b] rest IH]; intro n; simpl.
  - f_equal. f_equal. lia.
  - unfold requests_get.
    destruct (H n (pair_url pair_limit (_to_en_uri a) (_to_en_uri b)))
      as (items & -> & T).
    simpl. unfold edges_of. simpl. rewrite T. simpl. rewrite IH.
    f_equal. f_equal. lia.
Qed.

(** X6. When every answer is a JSON object whose ["edges"] is absent, [null]
    or empty, the function returns the empty list, whatever the objects and
    the configuration are. *)
Theorem no_edges_give_nothing (remote : nat -> str -> reply)
    (objects : list str) (relations : option (list str))
    (per_object_limit pair_limit : Z) (min_weight : pyfloat) (max_facts : Z) :
  (forall n url, exists items,
      remote n url = Body (Some (JObj items))
      /\ truthy (dict_get items (py "edges") JNull) = false) ->
  get_conceptnet_facts_for_image remote objects relations per_object_limit
    pair_limit min_weight max_facts = Ok [].
Proof.
  intro H. unfold get_conceptnet_facts_for_image, ranked_facts, collect.
  rewrite (no_edges_per_object _ _ _ _ _ H). simpl.
  rewrite (no_edges_pairs _ _ _ _ _ H). simpl. now rewrite slice_to_nil.
Qed.

(** ** The requests *)

Lemma pair_edges_count (remote : nat -> str -> reply) (rels : list str)
    (pair_limit : Z) (min_weight : pyfloat) (pairs : list (str * str)) :
  forall (n : nat) (best : facts) (st : nat * facts),
    pair_edges remote rels pair_limit min_weight pairs n best = Ok st ->
    fst st = (n + List.length pairs)%nat.
Proof.
  induction pairs as [|[a b] rest IH]; intros n best st H; simpl in H.
  - injection H as <-. simpl. lia.
  - destruct (requests_get remote n _) as [response|x]; [|discriminate].
    simpl in H. destruct (json_ response) as [data|x]; [|discriminate].
    simpl in H. destruct (edges_of data) as [edges|x]; [|discriminate].
    simpl in H.
    destruct (for_edges rels min_weight edges best) as [best1|x]; [|discriminate].
    simpl in H. apply IH in H. rewrite H. simpl. lia.
Qed.

Lemma combinations2_length {A : Type} (l : list A) :
  (2 * List.length (combinations2 l) = List.length l * (List.length l - 1))%nat.
Proof.
  induction l as [|a t IH]; simpl; [reflexivity|].
  rewrite length_app, length_map. nia.
Qed.

(** X7. A run that collects its facts to the end has made two requests for
    each object and one for each pair of objects: with [n] objects, twice
    the number of its requests is [4 n + n (n - 1)]. *)
Theorem requests_of_a_run (remote : nat -> str -> reply) (rels : list str)
    (per_object_limit pair_limit : Z) (min_weight : pyfloat) (objs : list str)
    (best : facts) :
  collect remote rels per_object_limit pair_limit min_weight objs = Ok best ->
  exists st1 st2,
    per_object_edges remote rels per_object_limit min_weight objs 0%nat [] = Ok st1
    /\ pair_edges remote rels pair_limit min_weight (combinations2 objs)
         (fst st1) (snd st1) = Ok st2
    /\ snd st2 = best
    /\ fst st1 = (2 * List.length objs)%nat
    /\ (2 * fst st2
        = 4 * List.length objs + List.length objs * (List.length objs - 1))%nat.
Proof.
  unfold collect. intro H.
  destruct (per_object_edges _ _ _ _ objs 0%nat []) as [st1|x] eqn:P1;
    [|discriminate].
  simpl in H.
  destruct (pair_edges _ _ _ _ _ (fst st1) (snd st1)) as [st2|x] eqn:P2;
    [|discriminate].
  simpl in H. injection H as <-. exists st1, st2.
  split; [reflexivity|]. split; [exact P2|]. split; [reflexivity|].
  apply per_object_edges_fetched in P1. destruct P1 as [N1 _].
  apply pair_edges_count in P2.
  pose proof (combinations2_length objs). split; lia.
Qed.

(** ** The filter and the dictionary *)

(** X8. The filter is monotone: an edge that it keeps is still kept when
    relations are added to the allowed set and when the threshold is
    lowered. *)
Theorem keep_edge_monotone (rels rels' : list str) (m m' : pyfloat) (e : json) :
  keep_edge rels m e = Ok true ->
  incl rels rels' -> fge m m' = true ->
  keep_edge rels' m' e = Ok true.
Proof.
  intros K I G. apply keep_edge_true in K.
  destruct K as (items & r & label & w & E & R & L & M & W & G').
  apply keep_edge_true. exists items, r, label, w.
  split; [exact E|]. split; [exact R|]. split; [exact L|].
  split; [now apply I|]. split; [exact W|]. now apply fge_trans with m.
Qed.

Lemma fgt_trans (x y z : pyfloat) :
  fgt x y = true -> fgt y z = true -> fgt x z = true.
Proof.
  destruct x as [| |a|], y as [| |b|], z as [| |c|];
    try (unfold fgt; simpl; congruence).
  rewrite !Qlt_of_fgt. intros H1 H2. eapply Qlt_trans; eauto.
Qed.

Lemma for_edges_grows (rels : list str) (min_weight : pyfloat) (edges : list json) :
  forall best best' : facts,
    NoDup (map fst best) ->
    for_edges rels min_weight edges best = Ok best' ->
    NoDup (map fst best')
    /\ forall k w, In (k, w) best ->
         exists w', In (k, w') best' /\ (w' = w \/ fgt w' w = true).
Proof.
  induction edges as [|e rest IH]; intros best best' N E; simpl in E.
  - injection E as <-. split; [exact N|]. intros k w H. exists w. auto.
  - destruct (keep_edge rels min_weight e) as [[|]|x] eqn:K; simpl in E;
      [| |discriminate].
    + rewrite (add_edge_fact_kept rels min_weight e best K) in E. simpl in E.
      destruct (edge_fact e) as [[k0 w0]|]; [|now apply IH].
      destruct (fgt w0 (best_get best k0 (Fin (-1)))) eqn:G; [|now apply IH].
      destruct (IH _ _ (best_set_nodup best k0 w0 N) E) as [N' H'].
      split; [exact N'|]. intros k w Hin.
      destruct (key_eq_dec k k0) as [-> | Hne].
      * rewrite (best_get_present best k0 w _ N Hin) in G.
        destruct (H' k0 w0) as (w' & Hw' & [-> | G']).
        -- apply best_set_items; [exact N | now left].
        -- exists w0. auto.
        -- exists w'. split; [exact Hw' | right]. now apply fgt_trans with w0.
      * apply H'. apply best_set_items; [exact N | now right].
    + now apply IH.
Qed.

(** X9. The loop over the edges never takes a key out of the dictionary and
    never lowers a weight: whatever was stored under a key before the loop
    is there after it, with the same weight or a greater one. *)
Theorem for_edges_never_forgets (rels : list str) (min_weight : pyfloat)
    (edges : list json) (best best' : facts) (k : key) (w : pyfloat) :
  NoDup (map fst best) ->
  for_edges rels min_weight edges best = Ok best' ->
  In (k, w) best ->
  exists w', In (k, w') best' /\ (w' = w \/ fgt w' w = true).
Proof. intros N E H. now apply (for_edges_grows rels min_weight edges best best' N E). Qed.

Lemma kept_fact_passes (rels : list str) (min_weight : pyfloat) (e : json)
    (s r o : str) (w : pyfloat) :
  kept rels min_weight e -> edge_fact e = Some ((s, r, o), w) ->
  (s <> [] /\ strip s = s) /\ (r <> [] /\ In r rels) /\ (o <> [] /\ strip o = o)
  /\ fge w min_weight = true.
Proof.
  intros K F. pose proof (kept_fact_ge _ _ _ _ _ K F) as G.
  apply keep_edge_true in K.
  destruct K as (items & x & label & w' & -> & R & L & M & W & _).
  apply dict_get_default with (d' := JStr []) in L; [|discriminate].
  unfold edge_fact in F. rewrite R, L, W in F.
  destruct (negb (str_eqb _ [])) eqn:Cs in F; [|discriminate].
  destruct (negb (str_eqb label [])) eqn:Cr in F; [|discriminate].
  destruct (negb (str_eqb _ [])) eqn:Co in F; [|discriminate].
  simpl in F. injection F as <- <- <- _.
  apply negb_true_iff in Cs, Cr, Co. apply str_eqb_nil in Cs, Cr, Co.
  repeat split; try assumption; apply as_label_trimmed.
Qed.

(** X10. Every ranked fact has passed the filter: its relation label is one
    of the allowed relations, its weight is at least [min_weight], and its
    subject, relation and object labels are not empty, the subject and the
    object being trimmed. *)
Theorem ranked_facts_pass_the_filter (remote : nat -> str -> reply)
    (objects : list str) (relations : option (list str))
    (per_object_limit pair_limit : Z) (min_weight : pyfloat) (max_facts : Z)
    (ranked : facts) (s r o : str) (w : pyfloat) :
  ranked_facts remote objects relations per_object_limit pair_limit min_weight
    max_facts = Ok ranked ->
  In ((s, r, o), w) ranked ->
  (s <> [] /\ strip s = s) /\ (r <> [] /\ In r (rels_of relations))
  /\ (o <> [] /\ strip o = o) /\ fge w min_weight = true.
Proof.
  intros H Hin. unfold ranked_facts in H.
  destruct (collect _ _ _ _ _ _) as [best|x] eqn:C; [|discriminate].
  simpl in H. injection H as <-.
  destruct (collect_holds _ _ _ _ _ _ _ C) as (_ & Hmax & _).
  apply slice_to_in in Hin.
  apply (Permutation_in _ (Permutation_sym (sorted_desc_perm best))) in Hin.
  destruct (Hmax _ _ Hin) as [(e & _ & K & F) _].
  eapply kept_fact_passes; eauto.
Qed.

(** ** Sentences *)

Lemma finish_visible (text : str) (c : char) :
  In c text -> isspace c = false -> exists sent, finish_sentence text = Ok sent.
Proof.
  intros Hin Hc. unfold finish_sentence.
  assert (V : In c (strip (re_sub_spaces (py " ") text))).
  { apply strip_keeps; [|exact Hc]. now apply sub_spaces_keeps. }
  destruct (strip (re_sub_spaces (py " ") text)) as [|d rest]; [contradiction|].
  eauto.
Qed.

Lemma template_visible (rel : str) (t : str -> str -> str) (s o : str) :
  lookup rel REL_TEMPLATES = Some t ->
  exists c, In c (t s o) /\ isspace c = false.
Proof.
  unfold REL_TEMPLATES. cbn [lookup].
  repeat (destruct (str_eqb rel _);
          [ intro H; injection H as <-; eexists; split;
            [ apply in_or_app; right; right; left; reflexivity
            | reflexivity ]
          | ]).
  discriminate.
Qed.

Lemma edge_to_sentence_visible (s rel o : str) :
  (exists c, In c rel /\ isspace c = false) ->
  exists sent, _edge_to_sentence s rel o = Ok sent.
Proof.
  intros (c & Hin & Hc). unfold _edge_to_sentence.
  destruct (lookup rel REL_TEMPLATES) as [t|] eqn:L.
  - destruct (template_visible rel t (strip (replace_underscores s))
                (strip (replace_underscores o)) L) as (d & Hd & Sd).
    now apply finish_visible with d.
  - apply finish_visible with c; [|exact Hc].
    apply in_or_app. right. apply in_or_app. right. apply in_or_app. now left.
Qed.

Lemma sentences_all (ranked : facts) :
  Forall (fun fact => let '((s, r, o), _) := fact in
                      exists sent, _edge_to_sentence s r o = Ok sent) ranked ->
  exists sents, sentences ranked = Ok sents.
Proof.
  induction 1 as [|[[[s r] o] w] rest (sent & E) _ (sents & IH)]; simpl;
    [eauto|].
  rewrite E, IH. simpl. eauto.
Qed.

(** X11. When every allowed relation label has a character that is no white
    space, as each default relation has, rendering cannot fail: a run that
    comes to its ranked facts returns one sentence for each of them. The
    function then raises only where fetching and filtering raise. *)
Theorem rendering_never_raises (remote : nat -> str -> reply)
    (objects : list str) (relations : option (list str))
    (per_object_limit pair_limit : Z) (min_weight : pyfloat) (max_facts : Z)
    (ranked : facts) :
  ranked_facts remote objects relations per_object_limit pair_limit min_weight
    max_facts = Ok ranked ->
  Forall (fun r => exists c, In c r /\ isspace c = false) (rels_of relations) ->
  exists sents,
    get_conceptnet_facts_for_image remote objects relations per_object_limit
      pair_limit min_weight max_facts = Ok sents
    /\ List.length sents = List.length ranked.
Proof.
  intros H V. unfold get_conceptnet_facts_for_image. rewrite H. simpl.
  assert (A : Forall (fun fact => let '((s, r, o), _) := fact in
                        exists sent, _edge_to_sentence s r o = Ok sent) ranked).
  { apply Forall_forall. intros [[[s r] o] w] Hin.
    apply edge_to_sentence_visible.
    unfold ranked_facts in H.
    destruct (collect _ _ _ _ _ _) as [best|x] eqn:C; [|discriminate].
    simpl in H. injection H as <-.
    destruct (collect_holds _ _ _ _ _ _ _ C) as (_ & Hmax & _).
    apply slice_to_in in Hin.
    apply (Permutation_in _ (Permutation_sym (sorted_desc_perm best))) in Hin.
    destruct (Hmax _ _ Hin) as [(e & _ & K & F) _].
    destruct (kept_fact_passes _ _ _ _ _ _ _ K F) as (_ & [_ Hr] & _).
    now apply (proj1 (Forall_forall _ _) V). }
  destruct (sentences_all ranked A) as (sents & E).
  exists sents. split; [exact E | now apply sentences_length].
Qed.

(** ** The ranking *)

Lemma fgt_not_fge (x y : pyfloat) : fgt y x = true -> fge x y = true -> False.
Proof.
  destruct x as [| |a|], y as [| |b|]; try (unfold fgt, fge; simpl; congruence).
  rewrite Qlt_of_fgt, Qle_of_fge. intros H1 H2.
  apply (Qlt_irrefl a). now apply Qlt_le_trans with b.
Qed.

Lemma insert_desc_ties (w : pyfloat) (x : key * pyfloat) (l : facts) :
  filter (fun z => same_weight (snd z) w) (insert_desc x l)
  = filter (fun z => same_weight (snd z) w) (x :: l).
Proof.
  induction l as [|y t IH]; [reflexivity|]. simpl insert_desc.
  destruct (fgt (snd y) (snd x)) eqn:G; [|reflexivity].
  simpl filter at 1. rewrite IH. simpl.
  destruct (same_weight (snd x) w) eqn:Px; [|reflexivity].
  destruct (same_weight (snd y) w) eqn:Py; [|reflexivity].
  exfalso. unfold same_weight in Px, Py.
  apply andb_true_iff in Px, Py. destruct Px as [Px _], Py as [_ Py].
  apply (fgt_not_fge _ _ G). now apply fge_trans with w.
Qed.

(** The stable sort leaves the items of one weight in their order. *)
Lemma sorted_desc_ties (best : facts) (w : pyfloat) :
  filter (fun z => same_weight (snd z) w) (sorted_desc best)
  = filter (fun z => same_weight (snd z) w) best.
Proof.
  induction best as [|x t IH]; [reflexivity|]. simpl sorted_desc.
  rewrite insert_desc_ties. simpl. now rewrite IH.
Qed.

Lemma existsb_key_eqb (k : key) (keys : list key) :
  existsb (key_eqb k) keys = if in_dec key_eq_dec k keys then true else false.
Proof.
  destruct (in_dec key_eq_dec k keys) as [Hin | Hout].
  - apply existsb_exists. exists k. split; [exact Hin | apply key_eqb_refl].
  - destruct (existsb (key_eqb k) keys) eqn:E; [|reflexivity].
    apply existsb_exists in E. destruct E as (x & Hin & E).
    apply key_eqb_eq in E. subst. contradiction.
Qed.

(** The keys of the dictionary stand in the order in which the loop first
    stored them. *)
Lemma for_edges_keys (rels : list str) (min_weight : pyfloat) (edges : list json) :
  forall best best',
    for_edges rels min_weight edges best = Ok best' ->
    map fst best' = first_stored rels min_weight edges (map fst best).
Proof.
  induction edges as [|e rest IH]; intros best best' E; simpl in E |- *.
  - now injection E as <-.
  - unfold storable.
    destruct (keep_edge rels min_weight e) as [[|]|x] eqn:K; simpl in E;
      [| |discriminate].
    + rewrite (add_edge_fact_kept rels min_weight e best K) in E. simpl in E.
      rewrite (IH _ _ E). f_equal.
      destruct (edge_fact e) as [[k w]|]; [|reflexivity].
      assert (S : (if fgt w (best_get best k (Fin (-1)))
                   then map fst (best_set best k w) else map fst best)
                  = if fgt w (Fin (-1))
                    then (if existsb (key_eqb k) (map fst best)
                          then map fst best else map fst best ++ [k])
                    else map fst best).
      { rewrite existsb_key_eqb, best_set_keys.
        destruct (in_dec key_eq_dec k (map fst best)) as [Hin | Hout].
        - now destruct (fgt w (best_get best k (Fin (-1)))), (fgt w (Fin (-1))).
        - now rewrite (best_get_absent best k _ Hout). }
      destruct (fgt w (best_get best k (Fin (-1)))), (fgt w (Fin (-1))); exact S.
    + now rewrite (IH _ _ E).
Qed.

(** X12. Ties keep their order. The keys of the dictionary that a run ranks
    stand in the order in which the fetched edges first stored them: the
    edges of the per-object phase before those of the pairs, each key where
    its first kept edge of a weight above -1.0 put it. Among the facts of one
    weight the sort leaves that order, and the ranked facts of that weight
    are the first of them. So of two edges of weight 2.0 the one that the
    answer lists first comes first, after an edge of weight 5.0 that the
    answer lists last. *)
Theorem ranking_keeps_ties (remote : nat -> str -> reply) (objects : list str)
    (relations : option (list str)) (per_object_limit pair_limit : Z)
    (min_weight : pyfloat) (max_facts : Z) (ranked : facts) :
  ranked_facts remote objects relations per_object_limit pair_limit min_weight
    max_facts = Ok ranked ->
  let rels := rels_of relations in
  let objs := dedup_objects objects [] in
  (exists best,
     collect remote rels per_object_limit pair_limit min_weight objs = Ok best
     /\ map fst best
        = first_stored rels min_weight
            (fetched remote per_object_limit pair_limit objs) []
     /\ forall w,
          let tie := fun z : key * pyfloat => same_weight (snd z) w in
          filter tie (sorted_desc best) = filter tie best
          /\ exists later, filter tie best = filter tie ranked ++ later)
  /\ ranked_facts
       (service_for "dog" [ edge "dog" "AtLocation" "park" (JFloat (Fin 2));
                            edge "dog" "IsA" "animal" (JFloat (Fin 2));
                            edge "dog" "HasA" "tail" (JFloat (Fin 5)) ])
       [py "dog"] None 25 25 (Fin 1) 40
     = Ok [ ((py "dog", py "HasA", py "tail"), Fin 5);
            ((py "dog", py "AtLocation", py "park"), Fin 2);
            ((py "dog", py "IsA", py "animal"), Fin 2) ]
  /\ ranked_facts
       (service_for "dog" [ edge "dog" "IsA" "animal" (JFloat (Fin 2));
                            edge "dog" "AtLocation" "park" (JFloat (Fin 2));
                            edge "dog" "HasA" "tail" (JFloat (Fin 5)) ])
       [py "dog"] None 25 25 (Fin 1) 40
     = Ok [ ((py "dog", py "HasA", py "tail"), Fin 5);
            ((py "dog", py "IsA", py "animal"), Fin 2);
            ((py "dog", py "AtLocation", py "park"), Fin 2) ].
Proof.
  intros H rels objs. unfold ranked_facts in H. fold rels objs in H.
  destruct (collect remote rels per_object_limit pair_limit min_weight objs)
    as [best|x] eqn:C; [|discriminate].
  simpl in H. injection H as <-.
  split; [|split; vm_compute; reflexivity].
  exists best. split; [reflexivity|]. split.
  - apply collect_fetched in C. now apply for_edges_keys in C.
  - intros w tie. split; [apply sorted_desc_ties|].
    destruct (slice_to_firstn max_facts (sorted_desc best)) as [n ->].
    exists (filter tie (skipn n (sorted_desc best))).
    rewrite <- filter_app, firstn_skipn. symmetry. apply sorted_desc_ties.
Qed.

(** X13. With a [max_facts] that is not negative, the function returns as
    many sentences as there are facts in the dictionary, up to [max_facts]:
    the smaller of the two numbers. *)
Theorem sentence_count (remote : nat -> str -> reply) (objects : list str)
    (relations : option (list str)) (per_object_limit pair_limit : Z)
    (min_weight : pyfloat) (max_facts : Z) (best : facts) (sents : list str) :
  (0 <= max_facts)%Z ->
  collect remote (rels_of relations) per_object_limit pair_limit min_weight
    (dedup_objects objects []) = Ok best ->
  get_conceptnet_facts_for_image remote objects relations per_object_limit
    pair_limit min_weight max_facts = Ok sents ->
  List.length sents = Nat.min (Z.to_nat max_facts) (List.length best).
Proof.
  intros Hk C H. unfold get_conceptnet_facts_for_image, ranked_facts in H.
  rewrite C in H. simpl in H. rewrite (sentences_length _ _ H).
  unfold slice_to. destruct (max_facts <? 0)%Z eqn:E; [lia|].
  rewrite length_firstn.
  now rewrite <- (Permutation_length (sorted_desc_perm best)).
Qed.

Lemma sorted_app_ge {A : Type} (R : A -> A -> Prop) (l1 l2 : list A) (a b : A) :
  StronglySorted R (l1 ++ l2) -> In a l1 -> In b l2 -> R a b.
Proof.
  induction l1 as [|x t IH]; simpl; intros S Ha Hb; [contradiction|].
  inversion S as [|? ? S' Hx]; subst. destruct Ha as [-> | Ha].
  - apply (proj1 (Forall_forall _ _) Hx). apply in_or_app. now right.
  - now apply IH.
Qed.

(** X14. The truncation keeps the heaviest facts: the weight of a ranked
    fact is at least the weight of every fact of the dictionary that was
    cut off. *)
Theorem truncation_keeps_the_heaviest (remote : nat -> str -> reply)
    (objects : list str) (relations : option (list str))
    (per_object_limit pair_limit : Z) (min_weight : pyfloat) (max_facts : Z)
    (best ranked : facts) (a b : key * pyfloat) :
  collect remote (rels_of relations) per_object_limit pair_limit min_weight
    (dedup_objects objects []) = Ok best ->
  ranked_facts remote objects relations per_object_limit pair_limit min_weight
    max_facts = Ok ranked ->
  In a ranked -> In b best -> ~ In b ranked ->
  weight_ge a b.
Proof.
  intros C H Ha Hb Nb. unfold ranked_facts in H. rewrite C in H. simpl in H.
  injection H as <-.
  destruct (collect_holds _ _ _ _ _ _ _ C) as (_ & Hmax & _).
  assert (S : StronglySorted weight_ge (sorted_desc best)).
  { apply sorted_desc_sorted. apply Forall_forall. intros [k w] Hin. simpl.
    destruct (Hmax k w Hin) as [Sw _]. eapply seen_ordered; eauto. }
  destruct (slice_to_firstn max_facts (sorted_desc best)) as [n E].
  rewrite E in Ha, Nb. rewrite <- (firstn_skipn n (sorted_desc best)) in S.
  apply (sorted_app_ge _ _ _ _ _ S Ha).
  apply (Permutation_in _ (sorted_desc_perm best)) in Hb.
  rewrite <- (firstn_skipn n (sorted_desc best)) in Hb.
  apply in_app_or in Hb. destruct Hb as [Hb | Hb]; [contradiction | exact Hb].
Qed.

(** ** Articles and sentences *)

Lemma maybe_article_of_determined (o : str) :
  strip o = o ->
  startswith_any (lower o) [py "a "; py "an "; py "the "] = true ->
  _maybe_article o = o.
Proof.
  intros T D. unfold _maybe_article. rewrite T. destruct o as [|c t];
    [reflexivity|].
  cbv zeta.
  replace (startswith_any (lower (c :: t))
             [py "a "; py "an "; py "the "; py "this "; py "that ";
              py "these "; py "those "]) with true; [reflexivity|].
  unfold startswith_any in *. simpl existsb in *.
  destruct (startswith (lower (c :: t)) (py "a ")); [reflexivity|].
  destruct (startswith (lower (c :: t)) (py "an ")); [reflexivity|].
  destruct (startswith (lower (c :: t)) (py "the ")); [reflexivity|].
  discriminate.
Qed.

(** X15. The test of the [IsA] template on the object's determiner changes
    nothing: for every subject and object, the [IsA] sentence is made of the
    subject with its article, [" is "] and the object with its article as
    [_maybe_article] gives it, like the sentences of [PartOf] and [HasA]. *)
Theorem isa_test_changes_nothing (start end_ : str) :
  let s := strip (replace_underscores start) in
  let o := strip (replace_underscores end_) in
  _edge_to_sentence start (py "IsA") end_
  = finish_sentence (_maybe_article s ++ py " is " ++ _maybe_article o).
Proof.
  intros s o.
  assert (E : _edge_to_sentence start (py "IsA") end_ =
              finish_sentence
                (_maybe_article s ++ py " is " ++
                 (if negb (startswith_any (lower o) [py "a "; py "an "; py "the "])
                  then _maybe_article o else o))) by reflexivity.
  rewrite E.
  destruct (startswith_any (lower o) [py "a "; py "an "; py "the "]) eqn:D;
    [|reflexivity].
  simpl negb. cbv iota.
  rewrite (maybe_article_of_determined o); [reflexivity | apply strip_idem | exact D].
Qed.

Lemma lstrip_app (u v : str) : lstrip u <> [] -> lstrip (u ++ v) = lstrip u ++ v.
Proof.
  induction u as [|c t IH]; simpl; intro H; [now contradiction H|].
  destruct (isspace c); [now apply IH | reflexivity].
Qed.

Lemma rstrip_app (a n : str) : rstrip n <> [] -> rstrip (a ++ n) = a ++ rstrip n.
Proof.
  unfold rstrip. intro H. rewrite rev_app_distr, lstrip_app.
  - now rewrite rev_app_distr, rev_involutive.
  - intro E. apply H. now rewrite E.
Qed.

Lemma strip_after_word (x : char) (a n : str) :
  isspace x = false -> strip n = n -> n <> [] ->
  strip (x :: a ++ n) = x :: a ++ n.
Proof.
  intros Hx T N. unfold strip. rewrite (lstrip_fixed x _ Hx).
  assert (R : rstrip n = n).
  { rewrite <- T. unfold strip. apply rstrip_idem. }
  change (x :: a ++ n) with ((x :: a) ++ n).
  rewrite rstrip_app; rewrite R; [reflexivity | exact N].
Qed.

Lemma latin1_strip (s : str) : latin1 s = true -> latin1 (strip s) = true.
Proof.
  unfold latin1. rewrite !forallb_forall. intros H c Hc.
  apply H. now apply strip_in.
Qed.

(** X16. On a phrase whose code points are below U+0100, [_maybe_article]
    is idempotent: a phrase that has been given its article is not given
    another one. *)
Theorem maybe_article_idempotent (noun : str) :
  latin1 noun = true ->
  _maybe_article (_maybe_article noun) = _maybe_article noun.
Proof.
  intro L.
  assert (S : _maybe_article (strip noun) = _maybe_article noun).
  { unfold _maybe_article. now rewrite strip_idem. }
  assert (U : _maybe_article noun =
              match strip noun with
              | [] => strip noun
              | _ :: _ =>
                  if startswith_any (lower (strip noun))
                       [py "a "; py "an "; py "the "; py "this "; py "that ";
                        py "these "; py "those "]
                  then strip noun
                  else if endswith (lower (strip noun)) (py "s")
                          && negb (endswith_any (lower (strip noun))
                                     [py "ss"; py "us"])
                  then strip noun
                  else _choose_article (strip noun) ++ py " " ++ strip noun
              end) by reflexivity.
  pose proof (latin1_strip noun L) as Ln.
  pose proof (strip_idem noun) as T.
  destruct (strip noun) as [|c t] eqn:En; [now rewrite U|].
  destruct (startswith_any _ _) in U; [now rewrite U, S, U|].
  destruct (_ && _) in U; [now rewrite U, S, U|].
  rewrite U. clear U S.
  assert (A : forall art : str,
             art = py "an" \/ art = py "a" ->
             _maybe_article (art ++ py " " ++ c :: t) = art ++ py " " ++ c :: t).
  { intros art Ha.
    assert (R : strip (art ++ py " " ++ c :: t) = art ++ py " " ++ c :: t).
    { destruct Ha as [-> | ->].
      - apply (strip_after_word 97 [110; 32] (c :: t)); [reflexivity | exact T |].
        discriminate.
      - apply (strip_after_word 97 [32] (c :: t)); [reflexivity | exact T |].
        discriminate. }
    unfold _maybe_article. rewrite R.
    assert (Lr : lower (art ++ py " " ++ c :: t)
                 = map lower_latin1 (art ++ py " " ++ c :: t)).
    { unfold lower.
      replace (latin1 (art ++ py " " ++ c :: t)) with true; [reflexivity|].
      symmetry. unfold latin1 in *. rewrite !forallb_app, !andb_true_iff.
      split; [destruct Ha as [-> | ->]; reflexivity|].
      split; [reflexivity | exact Ln]. }
    destruct Ha as [-> | ->]; cbv zeta; rewrite Lr; reflexivity. }
  apply A. rewrite choose_article_first.
  destruct (lower (strip (c :: t))) as [|d u]; [now right|].
  destruct (existsb (N.eqb d) (py "aeiou")); [now left | now right].
Qed.

Lemma sub_spaces_single (b : bool) (s : str) :
  single_spaced b (sub_spaces (py " ") b s) = true.
Proof.
  revert b. induction s as [|c t IH]; intro b; simpl; [reflexivity|].
  destruct (isspace c) eqn:E.
  - destruct b; simpl; apply IH.
  - simpl. rewrite E. apply IH.
Qed.

Lemma single_spaced_prefix (b : bool) (a w : str) :
  single_spaced b (a ++ w) = true -> single_spaced b a = true.
Proof.
  revert b. induction a as [|c t IH]; intro b; simpl; [reflexivity|].
  destruct (isspace c); [|apply IH].
  rewrite !andb_true_iff. intros [H1 H2]. split; [exact H1 | now apply IH].
Qed.

Lemma single_spaced_lstrip (b : bool) (s : str) :
  single_spaced b s = true -> single_spaced false (lstrip s) = true.
Proof.
  revert b. induction s as [|c t IH]; intro b; simpl; [reflexivity|].
  destruct (isspace c) eqn:E.
  - rewrite !andb_true_iff. intros [_ H]. now apply IH with true.
  - intro H. simpl. now rewrite E.
Qed.

Lemma single_spaced_strip (s : str) :
  single_spaced false s = true -> single_spaced false (strip s) = true.
Proof.
  intro H. unfold strip.
  destruct (rstrip_prefix (lstrip s)) as [w E].
  apply single_spaced_prefix with w. rewrite <- E.
  now apply single_spaced_lstrip with false.
Qed.

(** X17. A sentence that [_edge_to_sentence] returns is a body, with its
    first character put in upper case, and a period. The body neither starts
    nor ends with white space, and white space stands in it as single spaces
    only. *)
Theorem sentence_shape (start rel end_ sent : str) :
  _edge_to_sentence start rel end_ = Ok sent ->
  exists c rest,
    sent = upper1 c ++ rest ++ py "."
    /\ isspace c = false
    /\ strip (c :: rest) = c :: rest
    /\ single_spaced false (c :: rest) = true.
Proof.
  unfold _edge_to_sentence, finish_sentence.
  match goal with |- context [re_sub_spaces (py " ") ?t] => generalize t end.
  intros text H.
  pose proof (strip_idem (re_sub_spaces (py " ") text)) as T.
  pose proof (single_spaced_strip _ (sub_spaces_single false text)) as P.
  fold (re_sub_spaces (py " ") text) in P.
  destruct (strip_head (re_sub_spaces (py " ") text)) as [E | (c & rest & E & Hc)];
    rewrite E in *; [discriminate|].
  injection H as <-. exists c, rest. auto.
Qed.

(** ** Failures *)

Lemma answered (remote : nat -> str -> reply) (n : nat) (url : str)
    (response : option json) :
  requests_get remote n url = Ok response -> remote n url = Body response.
Proof.
  unfold requests_get. destruct (remote n url); [discriminate|].
  now intros [= ->].
Qed.

Lemma answered_object (remote : nat -> str -> reply) (n : nat) (url : str)
    (response : option json) (data : json) (edges : list json) :
  requests_get remote n url = Ok response -> json_ response = Ok data ->
  edges_of data = Ok edges ->
  exists items, remote n url = Body (Some (JObj items)).
Proof.
  intros R J E. apply answered in R. rewrite R.
  destruct response as [v|]; [|discriminate]. injection J as ->.
  destruct data; try discriminate. eauto.
Qed.

Lemma per_object_edges_answered (remote : nat -> str -> reply) (rels : list str)
    (per_object_limit : Z) (min_weight : pyfloat) (objs : list str) :
  forall (n : nat) (best : facts) (st : nat * facts),
    per_object_edges remote rels per_object_limit min_weight objs n best = Ok st ->
    Forall (fun r => remote (fst r) (snd r) <> Unreachable)
      (printed_requests per_object_limit objs n)
    /\ Forall (fun r => exists items, remote (fst r) (snd r) = Body (Some (JObj items)))
         (object_requests per_object_limit objs n).
Proof.
  induction objs as [|obj rest IH]; intros n best st H; simpl in H.
  - split; constructor.
  - destruct (requests_get remote n _) as [printed|x] eqn:P; [|discriminate].
    simpl in H.
    destruct (requests_get remote (S n) _) as [response|x] eqn:R; [|discriminate].
    simpl in H. destruct (json_ response) as [data|x] eqn:J; [|discriminate].
    simpl in H. destruct (edges_of data) as [edges|x] eqn:E; [|discriminate].
    simpl in H.
    destruct (for_edges rels min_weight edges best) as [best1|x]; [|discriminate].
    simpl in H. apply IH in H. destruct H as [H1 H2]. split; simpl.
    + constructor; [|exact H1]. simpl. apply answered in P. congruence.
    + constructor; [|exact H2]. simpl. eapply answered_object; eauto.
Qed.

Lemma pair_edges_answered (remote : nat -> str -> reply) (rels : list str)
    (pair_limit : Z) (min_weight : pyfloat) (pairs : list (str * str)) :
  forall (n : nat) (best : facts) (st : nat * facts),
    pair_edges remote rels pair_limit min_weight pairs n best = Ok st ->
    Forall (fun r => exists items, remote (fst r) (snd r) = Body (Some (JObj items)))
      (pair_requests pair_limit pairs n).
Proof.
  induction pairs as [|[a b] rest IH]; intros n best st H; simpl in H.
  - constructor.
  - destruct (requests_get remote n _) as [response|x] eqn:R; [|discriminate].
    simpl in H. destruct (json_ response) as [data|x] eqn:J; [|discriminate].
    simpl in H. destruct (edges_of data) as [edges|x] eqn:E; [|discriminate].
    simpl in H.
    destruct (for_edges rels min_weight edges best) as [best1|x]; [|discriminate].
    simpl in H. apply IH in H. simpl.
    constructor; [|exact H]. simpl. eapply answered_object; eauto.
Qed.

(** X18. There are no partial results: when the facts are collected to the
    end, every request of the run has been answered, and the answer to every
    per-object lookup and to every pair lookup was a JSON object. One
    request without an answer, or one body that is no JSON object, and
    nothing is returned. *)
Theorem no_partial_results (remote : nat -> str -> reply) (rels : list str)
    (per_object_limit pair_limit : Z) (min_weight : pyfloat) (objs : list str)
    (best : facts) :
  collect remote rels per_object_limit pair_limit min_weight objs = Ok best ->
  Forall (fun r => remote (fst r) (snd r) <> Unreachable)
    (printed_requests per_object_limit objs 0%nat)
  /\ Forall (fun r => exists items, remote (fst r) (snd r) = Body (Some (JObj items)))
       (object_requests per_object_limit objs 0%nat
        ++ pair_requests pair_limit (combinations2 objs) (2 * List.length objs)%nat).
Proof.
  unfold collect. intro H.
  destruct (per_object_edges _ _ _ _ objs 0%nat []) as [st1|x] eqn:P1;
    [|discriminate].
  simpl in H.
  destruct (pair_edges _ _ _ _ _ (fst st1) (snd st1)) as [st2|x] eqn:P2;
    [|discriminate].
  destruct (per_object_edges_answered _ _ _ _ _ _ _ _ P1) as [A1 A2].
  apply per_object_edges_fetched in P1. destruct P1 as [N1 _].
  rewrite N1 in P2. apply pair_edges_answered in P2.
  split; [exact A1|]. apply Forall_app. split; [exact A2 | exact P2].
Qed.

(** X19. When [keep_edge] raises: [AttributeError] exactly when the edge is
    no object or its [rel] is there and is no object, [TypeError] exactly
    when the label of its [rel] object is a list or an object; and never
    another exception. *)
Theorem keep_edge_raises (rels : list str) (min_weight : pyfloat) (e : json)
    (x : exn) :
  keep_edge rels min_weight e = Raise x <->
  (x = AttributeError
   /\ forall items r, e = JObj items -> dict_get items (py "rel") (JObj []) <> JObj r)
  \/ (x = TypeError
      /\ exists items r label,
           e = JObj items
           /\ dict_get items (py "rel") (JObj []) = JObj r
           /\ dict_get r (py "label") JNull = label
           /\ ((exists l, label = JArr l) \/ (exists l, label = JObj l))).
Proof.
  unfold keep_edge. split.
  - destruct e as [| | | | | |items]; simpl;
      try (intros [= <-]; left; split; [reflexivity | discriminate]).
    destruct (dict_get items (py "rel") (JObj [])) as [| | | | | |r] eqn:R; simpl;
      try (intros [= <-]; left; split; [reflexivity|];
           intros items' r' [= <-]; congruence).
    destruct (dict_get r (py "label") JNull) as [| | | |label|l|l] eqn:L; simpl;
      try discriminate.
    + destruct (existsb (str_eqb label) rels); [|discriminate].
      rewrite weight_of_dict. discriminate.
    + intros [= <-]. right. split; [reflexivity|].
      exists items, r, (JArr l). repeat split; eauto.
    + intros [= <-]. right. split; [reflexivity|].
      exists items, r, (JObj l). repeat split; eauto.
  - intros [[-> H] | [-> (items & r & label & -> & R & L & T)]].
    + destruct e as [| | | | | |items]; try reflexivity. simpl.
      destruct (dict_get items (py "rel") (JObj [])) as [| | | | | |r] eqn:R;
        try reflexivity.
      now contradiction (H items r eq_refl).
    + simpl. rewrite R. simpl. rewrite L.
      destruct T as [[l ->] | [l ->]]; reflexivity.
Qed.

(** ** The objects again *)

Lemma dedup_objects_fixed (l : list str) :
  forall seen : list str,
    NoDup (map lower l) ->
    Forall (fun o => o <> [] /\ strip o = o) l ->
    (forall o, In o l -> ~ In (lower o) seen) ->
    dedup_objects l seen = l.
Proof.
  induction l as [|o rest IH]; intros seen N T D; simpl; [reflexivity|].
  inversion N as [|? ? Ho N']; subst. inversion T as [|? ? [Hne Hs] T']; subst.
  rewrite Hs. rewrite (proj2 (str_eqb_nil o) Hne).
  assert (E : existsb (str_eqb (lower o)) seen = false).
  { apply not_true_is_false. intro H. apply existsb_str_eqb in H.
    apply (D o); [now left | exact H]. }
  rewrite E. simpl. f_equal. apply IH; [exact N' | exact T' |].
  intros o' Ho' [H | H].
  - apply Ho. rewrite H. now apply in_map.
  - apply (D o'); [now right | exact H].
Qed.

(** X20. Removing the repeated objects is idempotent, and the function
    depends on its objects through the deduplicated list alone: called on
    that list, it does what it does on the original one. *)
Theorem dedup_objects_idempotent (remote : nat -> str -> reply)
    (objects : list str) (relations : option (list str))
    (per_object_limit pair_limit : Z) (min_weight : pyfloat) (max_facts : Z) :
  dedup_objects (dedup_objects objects []) [] = dedup_objects objects []
  /\ get_conceptnet_facts_for_image remote (dedup_objects objects []) relations
       per_object_limit pair_limit min_weight max_facts
     = get_conceptnet_facts_for_image remote objects relations
         per_object_limit pair_limit min_weight max_facts.
Proof.
  assert (E : dedup_objects (dedup_objects objects []) [] = dedup_objects objects []).
  { destruct (dedup_objects_spec objects []) as (N & _ & T & _ & _).
    apply dedup_objects_fixed; [exact N | exact T | intros o _ []]. }
  split; [exact E|].
  unfold get_conceptnet_facts_for_image, ranked_facts. now rewrite E.
Qed.

(** ** The weights of the dictionary *)

Lemma best_get_cases (best : facts) (k : key) (d : pyfloat) :
  best_get best k d = d \/ In (k, best_get best k d) best.
Proof.
  induction best as [|[k' w'] rest IH]; simpl; [now left|].
  destruct (key_eqb k k') eqn:E.
  - apply key_eqb_eq in E. subst. right. now left.
  - destruct IH as [IH | IH]; [now left | right; now right].
Qed.

Lemma best_set_in (best : facts) (k : key) (w : pyfloat) (k' : key) (w' : pyfloat) :
  In (k', w') (best_set best k w) -> (k' = k /\ w' = w) \/ In (k', w') best.
Proof.
  induction best as [|[k0 w0] rest IH]; simpl.
  - intros [[= <- <-] | []]. now left.
  - destruct (key_eqb k k0) eqn:E; simpl.
    + apply key_eqb_eq in E. subst k0.
      intros [[= <- <-] | H]; [now left | right; now right].
    + intros [H | H]; [right; now left|].
      destruct (IH H) as [H' | H']; [now left | right; now right].
Qed.

Lemma for_edges_above (rels : list str) (min_weight : pyfloat) (edges : list json) :
  forall best best' : facts,
    (forall k w, In (k, w) best -> fgt w (Fin (-1)) = true) ->
    for_edges rels min_weight edges best = Ok best' ->
    forall k w, In (k, w) best' -> fgt w (Fin (-1)) = true.
Proof.
  induction edges as [|e rest IH]; intros best best' J E; simpl in E.
  - now injection E as <-.
  - destruct (keep_edge rels min_weight e) as [[|]|x] eqn:K; simpl in E;
      [| |discriminate]; [|now apply (IH best)].
    rewrite (add_edge_fact_kept rels min_weight e best K) in E. simpl in E.
    apply (IH _ _) with (2 := E).
    destruct (edge_fact e) as [[k0 w0]|]; [|exact J].
    destruct (fgt w0 (best_get best k0 (Fin (-1)))) eqn:G; [|exact J].
    intros k w Hin. apply best_set_in in Hin.
    destruct Hin as [[-> ->] | Hin]; [|now apply (J k)].
    destruct (best_get_cases best k0 (Fin (-1))) as [D | D].
    + now rewrite D in G.
    + apply fgt_trans with (best_get best k0 (Fin (-1))); [exact G|].
      now apply (J k0).
Qed.

(** X21. No weight of a ranked fact is NaN, and each is greater than -1.0,
    the value that stands for a key without an entry. *)
Theorem ranked_weights_above_minus_one (remote : nat -> str -> reply)
    (objects : list str) (relations : option (list str))
    (per_object_limit pair_limit : Z) (min_weight : pyfloat) (max_facts : Z)
    (ranked : facts) (k : key) (w : pyfloat) :
  ranked_facts remote objects relations per_object_limit pair_limit min_weight
    max_facts = Ok ranked ->
  In (k, w) ranked ->
  fgt w (Fin (-1)) = true /\ w <> NaN.
Proof.
  intros H Hin. unfold ranked_facts in H.
  destruct (collect _ _ _ _ _ _) as [best|x] eqn:C; [|discriminate].
  simpl in H. injection H as <-.
  apply slice_to_in in Hin.
  apply (Permutation_in _ (Permutation_sym (sorted_desc_perm best))) in Hin.
  apply collect_fetched in C.
  assert (G : fgt w (Fin (-1)) = true).
  { apply (for_edges_above _ _ _ [] best) with (k := k) (2 := C); [|exact Hin].
    intros k' w' []. }
  split; [exact G | now apply fgt_ordered in G].
Qed.

(** ** The renderer, step by step *)

(** The article heuristic in one equation. *)
Lemma maybe_article_unfold (noun : str) :
  _maybe_article noun =
  let n := strip noun in
  let l := lower n in
  match n with
  | [] => []
  | _ :: _ =>
      if startswith_any l [py "a "; py "an "; py "the "; py "this "; py "that ";
                           py "these "; py "those "]
         || (endswith l (py "s") && negb (endswith l (py "ss"))
             && negb (endswith l (py "us")))
      then n
      else (match l with
            | c :: _ => if existsb (N.eqb c) (py "aeiou") then py "an" else py "a"
            | [] => py "a"
            end) ++ py " " ++ n
  end.
Proof.
  cbv zeta. unfold _maybe_article.
  rewrite choose_article_first, strip_idem.
  destruct (strip noun) as [|c t]; [reflexivity|].
  unfold endswith_any. simpl existsb. rewrite orb_false_r, negb_orb, andb_assoc.
  now destruct (startswith_any _ _), (_ && _).
Qed.

(** The cleanup moves white space only. *)
Lemma lstrip_visible (s : str) :
  filter (fun c => negb (isspace c)) (lstrip s) = filter (fun c => negb (isspace c)) s.
Proof.
  induction s as [|c t IH]; simpl; [reflexivity|].
  destruct (isspace c) eqn:E; simpl; [exact IH | now rewrite E].
Qed.

Lemma strip_visible (s : str) :
  filter (fun c => negb (isspace c)) (strip s) = filter (fun c => negb (isspace c)) s.
Proof.
  unfold strip, rstrip.
  now rewrite filter_rev, lstrip_visible, <- filter_rev, rev_involutive, lstrip_visible.
Qed.

Lemma sub_spaces_visible (b : bool) (s : str) :
  filter (fun c => negb (isspace c)) (sub_spaces (py " ") b s)
  = filter (fun c => negb (isspace c)) s.
Proof.
  revert b. induction s as [|c t IH]; intro b; simpl; [reflexivity|].
  destruct (isspace c) eqn:E; simpl.
  - rewrite filter_app, IH. now destruct b.
  - now rewrite E, IH.
Qed.

(** [str.upper] of an ASCII character. *)
Lemma upper1_ascii (c : char) :
  c < 128 -> upper1 c = [if between 97 122 c then c - 32 else c].
Proof.
  intro H. unfold upper1, upper_latin1.
  replace (c <? 256) with true by (symmetry; apply N.ltb_lt; lia).
  destruct (between 97 122 c) eqn:B; [reflexivity|].
  replace (between 224 254 c) with false
    by (symmetry; unfold between; apply andb_false_iff; left; apply N.leb_gt; lia).
  replace (c =? 181) with false by (symmetry; apply N.eqb_neq; lia).
  replace (c =? 223) with false by (symmetry; apply N.eqb_neq; lia).
  replace (c =? 255) with false by (symmetry; apply N.eqb_neq; lia).
  reflexivity.
Qed.

(** C6. For each of the nine known relations the sentence is made of the
    text of its template. The subject is the start label with every
    underscore replaced by a space, trimmed, and carries the article of the
    heuristic; so does the object of [IsA] (unless it starts with ["a "],
    ["an "] or ["the "]), [PartOf], [HasA], [AtLocation] and [LocatedNear],
    while the object of [UsedFor], [CapableOf], [ReceivesAction] and
    [HasProperty] stands as it is. The heuristic leaves the trimmed phrase
    as it is when it is empty, starts with a determiner or ends in a plural
    [s], and puts ["an"] before a vowel and ["a"] before anything else. The
    text always leaves a sentence: the cleanup trims it and leaves single
    spaces for its white space, moving no other character; the first
    character is put in upper case, which for a letter of [a-z] is the
    letter 32 code points below; a period is appended. So (ice_cream, IsA,
    old_tree) reads ["An ice cream is an old tree."], and with the default
    configuration, the objects [dog] and [park] and the edge (dog,
    AtLocation, park) of weight 3.2 in the answer for [dog] give the one
    sentence ["A dog is often found in a park."]. *)
Theorem known_relations_render_by_template (start end_ : str) :
  let s := strip (map (fun c => if c =? 95 then 32 else c) start) in
  let o := strip (map (fun c => if c =? 95 then 32 else c) end_) in
  let a := _maybe_article in
  (renders_as start (py "IsA") end_
     (a s ++ py " is " ++
      (if startswith_any (lower o) [py "a "; py "an "; py "the "] then o else a o))
   /\ renders_as start (py "PartOf") end_ (a s ++ py " is part of " ++ a o)
   /\ renders_as start (py "HasA") end_ (a s ++ py " has " ++ a o)
   /\ renders_as start (py "UsedFor") end_ (a s ++ py " is used for " ++ o)
   /\ renders_as start (py "CapableOf") end_ (a s ++ py " can " ++ o)
   /\ renders_as start (py "ReceivesAction") end_ (a s ++ py " can be " ++ o)
   /\ renders_as start (py "AtLocation") end_ (a s ++ py " is often found in " ++ a o)
   /\ renders_as start (py "LocatedNear") end_ (a s ++ py " is often near " ++ a o)
   /\ renders_as start (py "HasProperty") end_ (a s ++ py " can be " ++ o))
  /\ (forall noun,
        a noun =
        let n := strip noun in
        let l := lower n in
        match n with
        | [] => []
        | _ :: _ =>
            if startswith_any l [py "a "; py "an "; py "the "; py "this ";
                                 py "that "; py "these "; py "those "]
               || (endswith l (py "s") && negb (endswith l (py "ss"))
                   && negb (endswith l (py "us")))
            then n
            else (match l with
                  | c :: _ =>
                      if existsb (N.eqb c) (py "aeiou") then py "an" else py "a"
                  | [] => py "a"
                  end) ++ py " " ++ n
        end)
  /\ (forall text,
        let body := strip (re_sub_spaces (py " ") text) in
        strip body = body
        /\ single_spaced false body = true
        /\ filter (fun c => negb (isspace c)) body
           = filter (fun c => negb (isspace c)) text)
  /\ (forall c, c < 128 -> upper1 c = [if between 97 122 c then c - 32 else c])
  /\ (_edge_to_sentence (py "ice_cream") (py "IsA") (py "old_tree")
      = Ok (py "An ice cream is an old tree.")
      /\ _edge_to_sentence (py "dog") (py "IsA") (py "an_animal")
         = Ok (py "A dog is an animal.")
      /\ _edge_to_sentence (py " big__dog ") (py "IsA") (py "animal")
         = Ok (py "A big dog is an animal.")
      /\ _edge_to_sentence (py "apple_pie") (py "PartOf") (py "the_meal")
         = Ok (py "An apple pie is part of the meal.")
      /\ _edge_to_sentence (py "dog") (py "HasA") (py "tail")
         = Ok (py "A dog has a tail.")
      /\ _edge_to_sentence (py "knife") (py "UsedFor") (py "cutting_bread")
         = Ok (py "A knife is used for cutting bread.")
      /\ _edge_to_sentence (py "dog") (py "CapableOf") (py "bark")
         = Ok (py "A dog can bark.")
      /\ _edge_to_sentence (py "door") (py "ReceivesAction") (py "opened")
         = Ok (py "A door can be opened.")
      /\ _edge_to_sentence (py "cats") (py "AtLocation") (py "house")
         = Ok (py "Cats is often found in a house.")
      /\ _edge_to_sentence (py "umbrella") (py "LocatedNear") (py "front_door")
         = Ok (py "An umbrella is often near a front door.")
      /\ _edge_to_sentence (py "ice") (py "HasProperty") (py "cold")
         = Ok (py "An ice can be cold."))
  /\ get_conceptnet_facts_for_image
       (service_for "ice_cream" [edge "ice_cream" "IsA" "old_tree" (JFloat (Fin 2))])
       [py "ice cream"] None 25 25 (Fin 1) 40
     = Ok [py "An ice cream is an old tree."]
  /\ get_conceptnet_facts_for_image
       (service_for "dog" [edge "dog" "AtLocation" "park" (JFloat w3_2)])
       [py "dog"; py "park"] None 25 25 (Fin 1) 40
     = Ok [py "A dog is often found in a park."].
Proof.
  intros s o a.
  split; [|split; [|split; [|split; [|split; [|split]]]]].
  - split; [|split; [|split; [|split; [|split; [|split; [|split; [|split]]]]]]].
    + apply renders_visible with (c := 105).
      * assert (E : _edge_to_sentence start (py "IsA") end_ =
                    finish_sentence
                      (a s ++ py " is " ++
                       (if negb (startswith_any (lower o) [py "a "; py "an "; py "the "])
                        then a o else o))) by reflexivity.
        rewrite E.
        now destruct (startswith_any (lower o) [py "a "; py "an "; py "the "]).
      * apply in_or_app; right; apply in_or_app; left; right; left; reflexivity.
      * reflexivity.
    + by_template 105.
    + by_template 104.
    + by_template 105.
    + by_template 99.
    + by_template 99.
    + by_template 105.
    + by_template 105.
    + by_template 99.
  - apply maybe_article_unfold.
  - intros text body. split; [apply strip_idem|]. split.
    + apply single_spaced_strip, sub_spaces_single.
    + unfold body, re_sub_spaces. now rewrite strip_visible, sub_spaces_visible.
  - apply upper1_ascii.
  - split; [|split; [|split; [|split; [|split; [|split; [|split; [|split;
      [|split; [|split]]]]]]]]]; vm_compute; reflexivity.
  - vm_compute. reflexivity.
  - vm_compute. reflexivity.
Qed.

End Interpreter.

(** * The properties on the examples *)

(** C1 at (hot, Antonym, cold): no template has the label ["Antonym"]. *)
Lemma unknown_relation_renders_fallback_witness :
  _edge_to_sentence ascii_lower_ext ascii_upper_ext
    (py "hot") (py "Antonym") (py "cold")
  = finish_sentence ascii_upper_ext
      (_maybe_article ascii_lower_ext (py "hot") ++ py " " ++ py "Antonym"
       ++ py " " ++ py "cold").
Proof.
  refine (proj1 (unknown_relation_renders_fallback ascii_lower_ext
                   ascii_upper_ext no_float_of_str no_str_of_value
                   (py "hot") (py "Antonym") (py "cold") _)).
  vm_compute. intuition discriminate.
Defined.

(** C1 as it was stated fails at (hot, Antonym, cold): the subject gets its
    article, and the sentence is not ["Hot Antonym cold."]. *)
Lemma hot_antonym_cold_has_article :
  _edge_to_sentence ascii_lower_ext ascii_upper_ext
    (py "hot") (py "Antonym") (py "cold")
  = Ok (py "A hot Antonym cold.")
  /\ py "A hot Antonym cold." <> py "Hot Antonym cold.".
Proof. split; [vm_compute; reflexivity | discriminate]. Qed.

(** X22 on the two edges (dog, IsA, animal) of weights 2.0 and 5.0. *)
Lemma ranked_facts_are_best_witness :
  NoDup (map fst [((py "dog", py "IsA", py "animal"), Fin 5)]).
Proof.
  refine (proj1 (ranked_facts_are_best ascii_lower_ext no_float_of_str
                   no_str_of_value
                   (service_for "dog" [ edge "dog" "IsA" "animal" (JFloat (Fin 2));
                                        edge "dog" "IsA" "animal" (JFloat (Fin 5)) ])
                   [py "dog"] None 25 25 (Fin 1) 40
                   [((py "dog", py "IsA", py "animal"), Fin 5)] _)).
  vm_compute. reflexivity.
Defined.

(** C3, where the code departs from it. With a [min_weight] of -5.0 the edge
    (dog, IsA, animal) of weight -2.0 passes the filter and has its fact key,
    of which the dictionary has no entry; the test against the -1.0 that
    [best.get] answers for such a key fails, so that no entry is made: the
    dictionary is empty when the run is over, and the run returns no fact and
    no sentence, although -2.0 is the greatest weight it saw for that key. *)
Lemma weight_below_minus_one_leaves_no_entry :
  kept no_float_of_str DEFAULT_RELATIONS (Fin (-5))
    (edge "dog" "IsA" "animal" (JFloat (Fin (-2))))
  /\ edge_fact no_float_of_str no_str_of_value
       (edge "dog" "IsA" "animal" (JFloat (Fin (-2))))
     = Some ((py "dog", py "IsA", py "animal"), Fin (-2))
  /\ fgt (Fin (-2)) (best_get [] (py "dog", py "IsA", py "animal") (Fin (-1))) = false
  /\ add_edge_fact no_float_of_str no_str_of_value
       (edge "dog" "IsA" "animal" (JFloat (Fin (-2)))) []
     = Ok []
  /\ collect ascii_lower_ext no_float_of_str no_str_of_value
       (service_for "dog" [edge "dog" "IsA" "animal" (JFloat (Fin (-2)))])
       DEFAULT_RELATIONS 25 25 (Fin (-5)) [py "dog"]
     = Ok []
  /\ ranked_facts ascii_lower_ext no_float_of_str no_str_of_value
       (service_for "dog" [edge "dog" "IsA" "animal" (JFloat (Fin (-2)))])
       [py "dog"] None 25 25 (Fin (-5)) 40
     = Ok []
  /\ get_conceptnet_facts_for_image ascii_lower_ext ascii_upper_ext
       no_float_of_str no_str_of_value
       (service_for "dog" [edge "dog" "IsA" "animal" (JFloat (Fin (-2)))])
       [py "dog"] None 25 25 (Fin (-5)) 40
     = Ok [].
Proof. repeat split; vm_compute; reflexivity. Qed.

(** C7 as it was stated fails on ["! !"]: none of its three characters is
    of [[a-z0-9_]], and yet it does not normalise to the empty string, for the
    space between the two marks leaves its underscore. *)
Lemma space_between_invalid_leaves_underscore :
  Forall (fun c => isident c = false) (py "! !")
  /\ _norm ascii_lower_ext (py "! !") = py "_"
  /\ py "_" <> [].
Proof.
  split; [repeat constructor|]. split; [vm_compute; reflexivity | discriminate].
Qed.

(** C8 as it was stated fails on a weight that is no number and that [float]
    reads all the same: the edge (dog, IsA, animal) with the weight [True] is
    kept at the threshold 1.0, for its weight is read as 1.0, while a weight
    of 0.0 is below that threshold. *)
Lemma boolean_weight_is_kept :
  keep_edge no_float_of_str DEFAULT_RELATIONS (Fin 1)
    (edge "dog" "IsA" "animal" (JBool true))
  = Ok true
  /\ _weight no_float_of_str (edge "dog" "IsA" "animal" (JBool true)) = Ok (Fin 1)
  /\ fge (Fin 0) (Fin 1) = false.
Proof. repeat split; vm_compute; reflexivity. Qed.

(** C4 on the objects [dog] and [park] with the default of 40 facts. *)
Lemma at_most_max_facts_witness :
  (Z.of_nat (List.length [py "A dog is often found in a park."]) <= 40)%Z.
Proof.
  apply (at_most_max_facts ascii_lower_ext ascii_upper_ext no_float_of_str
           no_str_of_value
           (service_for "dog" [edge "dog" "AtLocation" "park" (JFloat w3_2)])
           [py "dog"; py "park"] None 25 25 (Fin 1) 40).
  - lia.
  - vm_compute. reflexivity.
Defined.

(** C4 as it was stated fails for a negative [max_facts]: with -1 the slice
    drops the last of two ranked facts and one sentence is returned, which
    is more than -1. *)
Lemma negative_max_facts_returns_a_sentence :
  get_conceptnet_facts_for_image ascii_lower_ext ascii_upper_ext
    no_float_of_str no_str_of_value
    (service_for "dog" [ edge "dog" "AtLocation" "park" (JFloat w3_2);
                         edge "dog" "IsA" "animal" (JFloat (Fin 5)) ])
    [py "dog"] None 25 25 (Fin 1) (-1)
  = Ok [py "A dog is an animal."]
  /\ ~ (Z.of_nat (List.length [py "A dog is an animal."]) <= -1)%Z.
Proof. split; [vm_compute; reflexivity | simpl; lia]. Qed.

(** C5 on two edges of [dog]: the fact of weight 5.0 comes before the fact
    of weight 3.2, which the service sent first. *)
Lemma sentences_by_weight_witness :
  exists ranked,
    ranked_facts ascii_lower_ext no_float_of_str no_str_of_value
      (service_for "dog" [ edge "dog" "AtLocation" "park" (JFloat w3_2);
                           edge "dog" "IsA" "animal" (JFloat (Fin 5)) ])
      [py "dog"] None 25 25 (Fin 1) 40
    = Ok ranked
    /\ Forall2 (fun fact sent =>
                  let '((s, r, o), _) := fact in
                  _edge_to_sentence ascii_lower_ext ascii_upper_ext s r o = Ok sent)
               ranked
               [py "A dog is an animal."; py "A dog is often found in a park."]
    /\ StronglySorted weight_ge ranked.
Proof.
  apply (sentences_by_weight ascii_lower_ext ascii_upper_ext no_float_of_str
           no_str_of_value).
  vm_compute. reflexivity.
Defined.

(** C9 as it was stated fails on a phrase that is a determiner and nothing
    more: ["the"] starts with the determiner word [the] and is not returned
    as it is, since no space follows. *)
Lemma bare_determiner_gets_article :
  _maybe_article ascii_lower_ext (py "the") = py "a the"
  /\ py "a the" <> py "the".
Proof. split; [vm_compute; reflexivity | discriminate]. Qed.

(** * The further properties on the examples *)

(** X4 on two blank objects and a service that answers nothing. *)
Lemma blank_objects_give_nothing_witness :
  get_conceptnet_facts_for_image ascii_lower_ext ascii_upper_ext no_float_of_str
    no_str_of_value silence [py "  "; []] None 25 25 (Fin 1) 40
  = Ok [].
Proof. apply blank_objects_give_nothing. repeat constructor. Defined.

(** X5 on the object [dog] and a service that answers nothing. *)
Lemma unreachable_service_raises_witness :
  get_conceptnet_facts_for_image ascii_lower_ext ascii_upper_ext no_float_of_str
    no_str_of_value silence [py "dog"] None 25 25 (Fin 1) 40
  = Raise ConnectionError.
Proof.
  apply unreachable_service_raises.
  - exists (py "dog"). split; [now left | vm_compute; discriminate].
  - reflexivity.
Defined.

(** X6 on a service whose answers have no edge. *)
Lemma no_edges_give_nothing_witness :
  get_conceptnet_facts_for_image ascii_lower_ext ascii_upper_ext no_float_of_str
    no_str_of_value (service_for "cat" []) [py "dog"; py "cat"] None 25 25
    (Fin 1) 40
  = Ok [].
Proof.
  apply no_edges_give_nothing. intros n url. unfold service_for.
  destruct (str_eqb _ _); eexists; split; reflexivity.
Defined.

(** X7 on the objects [dog] and [park]: five requests. *)
Lemma requests_of_a_run_witness :
  exists st1 st2,
    per_object_edges ascii_lower_ext no_float_of_str no_str_of_value dog_answer
      DEFAULT_RELATIONS 25 (Fin 1) [py "dog"; py "park"] 0%nat [] = Ok st1
    /\ pair_edges ascii_lower_ext no_float_of_str no_str_of_value dog_answer
         DEFAULT_RELATIONS 25 (Fin 1) (combinations2 [py "dog"; py "park"])
         (fst st1) (snd st1) = Ok st2
    /\ snd st2 = [dog_at_park; dog_is_animal]
    /\ fst st1 = (2 * 2)%nat
    /\ (2 * fst st2 = 4 * 2 + 2 * (2 - 1))%nat.
Proof.
  apply (requests_of_a_run ascii_lower_ext no_float_of_str no_str_of_value
           dog_answer DEFAULT_RELATIONS 25 25 (Fin 1) [py "dog"; py "park"]).
  vm_compute. reflexivity.
Defined.

(** X8 on an edge kept for [IsA] alone at the threshold 2.0. *)
Lemma keep_edge_monotone_witness :
  keep_edge no_float_of_str DEFAULT_RELATIONS (Fin 1)
    (edge "dog" "IsA" "animal" (JFloat (Fin 2)))
  = Ok true.
Proof.
  apply (keep_edge_monotone no_float_of_str [py "IsA"] DEFAULT_RELATIONS
           (Fin 2) (Fin 1)).
  - vm_compute. reflexivity.
  - intros x [<- | []]. now left.
  - reflexivity.
Defined.

(** X9 on a dictionary that holds (dog, IsA, animal) with 2.0 and an edge of
    that key with 5.0. *)
Lemma for_edges_never_forgets_witness :
  exists w',
    In ((py "dog", py "IsA", py "animal"), w') [dog_is_animal]
    /\ (w' = Fin 2 \/ fgt w' (Fin 2) = true).
Proof.
  apply (for_edges_never_forgets no_float_of_str no_str_of_value
           DEFAULT_RELATIONS (Fin 1)
           [edge "dog" "IsA" "animal" (JFloat (Fin 5))]
           [((py "dog", py "IsA", py "animal"), Fin 2)]).
  - repeat constructor. intros [].
  - vm_compute. reflexivity.
  - now left.
Defined.

(** X10 on the heavier fact of [dog]. *)
Lemma ranked_facts_pass_the_filter_witness :
  (py "dog" <> [] /\ strip (py "dog") = py "dog")
  /\ (py "IsA" <> [] /\ In (py "IsA") (rels_of None))
  /\ (py "animal" <> [] /\ strip (py "animal") = py "animal")
  /\ fge (Fin 5) (Fin 1) = true.
Proof.
  apply (ranked_facts_pass_the_filter ascii_lower_ext no_float_of_str
           no_str_of_value dog_answer [py "dog"] None 25 25 (Fin 1) 40
           [dog_is_animal; dog_at_park]).
  - vm_compute. reflexivity.
  - now left.
Defined.

(** X11 with the default relations. *)
Lemma rendering_never_raises_witness :
  exists sents,
    get_conceptnet_facts_for_image ascii_lower_ext ascii_upper_ext
      no_float_of_str no_str_of_value dog_answer [py "dog"] None 25 25 (Fin 1) 40
    = Ok sents
    /\ List.length sents = List.length [dog_is_animal; dog_at_park].
Proof.
  apply rendering_never_raises.
  - vm_compute. reflexivity.
  - repeat (constructor; [eexists; split; [left; reflexivity | reflexivity]|]).
    constructor.
Defined.

(** X12 on three edges of [dog]: two of weight 2.0, then one of weight
    5.0. *)
Lemma ranking_keeps_ties_witness :
  exists best,
    collect ascii_lower_ext no_float_of_str no_str_of_value tied_answer
      DEFAULT_RELATIONS 25 25 (Fin 1) [py "dog"] = Ok best
    /\ map fst best
       = first_stored no_float_of_str no_str_of_value DEFAULT_RELATIONS (Fin 1)
           (fetched ascii_lower_ext tied_answer 25 25 [py "dog"]) []
    /\ forall w,
         let tie := fun z : key * pyfloat => same_weight (snd z) w in
         filter tie (sorted_desc best) = filter tie best
         /\ exists later, filter tie best = filter tie tied_ranked ++ later.
Proof.
  refine (proj1 (ranking_keeps_ties ascii_lower_ext no_float_of_str
                   no_str_of_value tied_answer [py "dog"] None 25 25 (Fin 1) 40
                   tied_ranked _)).
  vm_compute. reflexivity.
Defined.

(** X13 on the two facts of [dog] and the default of 40 facts. *)
Lemma sentence_count_witness :
  List.length [py "A dog is an animal."; py "A dog is often found in a park."]
  = Nat.min (Z.to_nat 40) (List.length [dog_at_park; dog_is_animal]).
Proof.
  apply (sentence_count ascii_lower_ext ascii_upper_ext no_float_of_str
           no_str_of_value dog_answer [py "dog"] None 25 25 (Fin 1) 40).
  - lia.
  - vm_compute. reflexivity.
  - vm_compute. reflexivity.
Defined.

(** X14 on the two facts of [dog] cut to one. *)
Lemma truncation_keeps_the_heaviest_witness : weight_ge dog_is_animal dog_at_park.
Proof.
  apply (truncation_keeps_the_heaviest ascii_lower_ext no_float_of_str
           no_str_of_value dog_answer [py "dog"] None 25 25 (Fin 1) 1
           [dog_at_park; dog_is_animal] [dog_is_animal]).
  - vm_compute. reflexivity.
  - vm_compute. reflexivity.
  - now left.
  - now left.
  - intros [H | []]. discriminate.
Defined.

(** X16 on ["apple"]. *)
Lemma maybe_article_idempotent_witness :
  _maybe_article ascii_lower_ext (_maybe_article ascii_lower_ext (py "apple"))
  = _maybe_article ascii_lower_ext (py "apple").
Proof. apply maybe_article_idempotent. reflexivity. Defined.

(** X17 on the sentence of (dog, IsA, animal). *)
Lemma sentence_shape_witness :
  exists c rest,
    py "A dog is an animal." = upper1 ascii_upper_ext c ++ rest ++ py "."
    /\ isspace c = false
    /\ strip (c :: rest) = c :: rest
    /\ single_spaced false (c :: rest) = true.
Proof.
  apply (sentence_shape ascii_lower_ext ascii_upper_ext
           (py "dog") (py "IsA") (py "animal")).
  vm_compute. reflexivity.
Defined.

(** X18 on the objects [dog] and [park]. *)
Lemma no_partial_results_witness :
  Forall (fun r => dog_answer (fst r) (snd r) <> Unreachable)
    (printed_requests ascii_lower_ext 25 [py "dog"; py "park"] 0%nat)
  /\ Forall (fun r => exists items, dog_answer (fst r) (snd r) = Body (Some (JObj items)))
       (object_requests ascii_lower_ext 25 [py "dog"; py "park"] 0%nat
        ++ pair_requests ascii_lower_ext 25 (combinations2 [py "dog"; py "park"])
             (2 * List.length [py "dog"; py "park"])%nat).
Proof.
  apply (no_partial_results ascii_lower_ext no_float_of_str no_str_of_value
           dog_answer DEFAULT_RELATIONS 25 25 (Fin 1) [py "dog"; py "park"]
           [dog_at_park; dog_is_animal]).
  vm_compute. reflexivity.
Defined.

(** X21 on the heavier fact of [dog]. *)
Lemma ranked_weights_above_minus_one_witness :
  fgt (Fin 5) (Fin (-1)) = true /\ Fin 5 <> NaN.
Proof.
  apply (ranked_weights_above_minus_one ascii_lower_ext no_float_of_str
           no_str_of_value dog_answer [py "dog"] None 25 25 (Fin 1) 40
           [dog_is_animal; dog_at_park] (py "dog", py "IsA", py "animal")).
  - vm_compute. reflexivity.
  - now left.
Defined.
